(** * ICEtool, Step 4: ground surface temperature from an EPW weather file

    A shallow embedding of [Scripts/Step4_ComputeTemperatureEPW.py]
    ([ComputeGroundTemperatureEPW.processAlgorithm]) and the properties of
    its numerical core.

    Conventions of the embedding.
    - Python floats are read as real numbers ([R]); arithmetic is exact and
      [/] is the total division of the standard library.  Not-a-number
      values are made explicit where the source relies on them
      ([np.arccos] outside [-1, 1]).
    - Python exceptions are values of [exn]; a computation that may raise
      has type [result A].  The [while] loop of [compute_temp] is given a
      bound on its number of passes; [Timeout] is what the model returns
      if the loop is still running when the bound is reached.
    - [scipy.optimize.root] is external to the repository: it is a
      parameter [root x0 A B C] standing for
      [optimize.root(thermal_equation, x0, (A, B, C)).x[0]].
    - [feedback.pushInfo] is modelled by the list of messages pushed. *)

From Stdlib Require Import Reals Lra Lia List ZArith Bool Arith.
From Stdlib Require Import String Ascii.
From Stdlib Require Import Permutation Sorted.
From Stdlib Require Import Zfloor.
From Stdlib Require Import ClassicalEpsilon.
Import ListNotations.

Local Open Scope R_scope.

(** ** Python runtime: exceptions, indexing, rounding *)

Inductive exn : Type :=
| IndexError
| UnboundLocalError
| ValueError
| StatisticsError
| FileNotFoundError
| SystemExit (msg : string).

Inductive result (A : Type) : Type :=
| Ok (a : A)
| Raise (e : exn)
| Timeout.

Arguments Ok {A} a.
Arguments Raise {A} e.
Arguments Timeout {A}.

Definition bind {A B : Type} (m : result A) (f : A -> result B) : result B :=
  match m with
  | Ok a => f a
  | Raise e => Raise e
  | Timeout => Timeout
  end.

Notation "x <- m ;; k" := (bind m (fun x => k))
  (at level 61, m at next level, right associativity).

(** [l[i]] for a non-negative index. *)
Definition index {A : Type} (l : list A) (i : nat) : result A :=
  match nth_error l i with
  | Some a => Ok a
  | None => Raise IndexError
  end.

(** [l[i] = v] for a non-negative index. *)
Fixpoint setitem {A : Type} (l : list A) (i : nat) (v : A) : result (list A) :=
  match l, i with
  | [], _ => Raise IndexError
  | _ :: l', O => Ok (v :: l')
  | a :: l', S i' => l'' <- setitem l' i' v ;; Ok (a :: l'')
  end.

(** Nearest integer, ties to the even one (the rounding of Python's
    [round] and of [numpy.around]). *)
Definition round_half_even (y : R) : Z :=
  let f := Zfloor y in
  let d := y - IZR f in
  if Rlt_dec d (1/2) then f
  else if Rlt_dec (1/2) d then (f + 1)%Z
  else if Z.even f then f else (f + 1)%Z.

(** [round(x, 2)]. *)
Definition round2 (x : R) : R := IZR (round_half_even (x * 100)) / 100.

(** [sum(l)], [np.mean(l)], [max(l)], [min(l)], [statistics.mean(l)]. *)
Definition sum (l : list R) : R := fold_left Rplus l 0.

Definition np_mean (l : list R) : R := sum l / INR (List.length l).

Definition py_max (l : list R) : result R :=
  match l with
  | [] => Raise ValueError
  | x :: l' => Ok (fold_left Rmax l' x)
  end.

Definition py_min (l : list R) : result R :=
  match l with
  | [] => Raise ValueError
  | x :: l' => Ok (fold_left Rmin l' x)
  end.

Definition statistics_mean (l : list R) : result R :=
  match l with
  | [] => Raise StatisticsError
  | _ => Ok (sum l / INR (List.length l))
  end.

(** [[f(x) for x in l]] where [f] may raise. *)
Fixpoint mapM {A B : Type} (f : A -> result B) (l : list A) : result (list B) :=
  match l with
  | [] => Ok []
  | a :: l' => b <- f a ;; bs <- mapM f l' ;; Ok (b :: bs)
  end.

(** [np.e]. *)
Definition np_e : R := exp 1.

(** [np.arccos]: not-a-number ([None]) outside [-1, 1]. *)
Definition np_arccos (x : R) : option R :=
  if Rle_dec (-1) x then if Rle_dec x 1 then Some (acos x) else None else None.

(** ** Weather profile *)

(** [str.isdigit] on ASCII text. *)
Definition is_digit (c : ascii) : bool :=
  let n := nat_of_ascii c in ((48 <=? n) && (n <=? 57))%nat.

Definition isdigit (s : string) : bool :=
  match s with
  | EmptyString => false
  | _ => forallb is_digit (list_ascii_of_string s)
  end.

(** [for i,row in enumerate(csvreader): if row[0].isdigit(): break];
    [first_row=i].  [last] is the value [i] holds from the previous
    iteration, if any. *)
Fixpoint scan_header (rows : list (list string)) (i : nat) (last : option nat)
  : result nat :=
  match rows with
  | [] => match last with
          | Some j => Ok j
          | None => Raise UnboundLocalError
          end
  | row :: rest =>
      f <- index row 0 ;;
      if isdigit f then Ok i else scan_header rest (S i) (Some i)
  end.

Definition first_row (rows : list (list string)) : result nat :=
  scan_header rows 0 None.

(** The columns of [WeatherData] the script reads. *)
Record weather_row : Type := {
  w_month : Z;
  w_day : Z;
  w_hour : Z;
  DryBulb : R;      (* Dry Bulb Temperature [DegC] *)
  RelHum : R;       (* Relative Humidity *)
  GlobHorRad : R    (* Global Horizontal Radiation [Wh/m2] *)
}.

(** [x ** 1.5] for [0 <= x]; pandas yields not-a-number below 0, which the
    reals do not represent. *)
Definition pow15 (x : R) : R := if Rle_dec x 0 then 0 else Rpower x 1.5.

(** [WeatherData["Tsky"]], from the Celsius reading. *)
Definition Tsky_of (w : weather_row) : R :=
  round2 ((0.037536 * pow15 (DryBulb w)) + (0.32 * DryBulb w) + 273.15).

(** [WeatherData["Dry Bulb Temperature [DegC]"]] after the shift to kelvin. *)
Definition DryBulbK (w : weather_row) : R := DryBulb w + 273.15.

Definition on_day (month day : Z) (w : weather_row) : bool :=
  ((w_month w =? month) && (w_day w =? day))%Z.

Definition AirTemp (W : list weather_row) (month day : Z) : list R :=
  map DryBulbK (filter (on_day month day) W).
Definition SolarRadiation (W : list weather_row) (month day : Z) : list R :=
  map GlobHorRad (filter (on_day month day) W).
Definition SkyTemp (W : list weather_row) (month day : Z) : list R :=
  map Tsky_of (filter (on_day month day) W).
Definition Humidity (W : list weather_row) (month day : Z) : list R :=
  map RelHum (filter (on_day month day) W).

(** Annual average temperature for each hour, [i] in [range(1,25)]. *)
Definition Tyear (W : list weather_row) : list R :=
  map (fun i => np_mean (map DryBulbK (filter (fun w => (w_hour w =? Z.of_nat i)%Z) W)))
      (seq 1 24).

(** Maximum annual temperature variation from the average. *)
Definition deltaT (W : list weather_row) : result (list R) :=
  mapM (fun i => hi <- py_max (map DryBulbK W) ;;
                 lo <- py_min (map DryBulbK W) ;;
                 Ok (Rmax (hi - i) (i - lo)))
       (Tyear W).

(** ** Ground temperature at 20 cm *)

(** [del l[start:len(l)]]. *)
Definition del_from {A : Type} (l : list A) (start : Z) : list A :=
  let n := Z.of_nat (List.length l) in
  let s := if (start <? 0)%Z then Z.max 0 (start + n) else Z.min start n in
  firstn (Z.to_nat s) l.

Definition list_month : list Z := [31; 28; 31; 30; 31; 30; 31; 31; 30; 31; 30; 31]%Z.

(** The day ordinal [t]. *)
Definition day_ordinal (month day : Z) : Z :=
  (fold_left Z.add (del_from list_month (month - 1)) 0 + day)%Z.

Definition Dh_of (lambd Cv : R) : R := (lambd / Cv) * 86400.

Definition Z_depth : R := 0.2.
Definition w_year : R := 2 * PI / 365.

Definition Tint (t : Z) (Tyear deltaT : list R) (Dh : R) : result (list R) :=
  let Zo := sqrt (2 * Dh / w_year) in
  mapM (fun i =>
          ty <- index Tyear i ;;
          dt <- index deltaT i ;;
          Ok (ty - dt * Rpower np_e (- Z_depth / Zo)
                       * cos (w_year * IZR t - Z_depth / Zo)))
       (seq 0 24).

(** ** Evapotranspiration, Penman-Monteith method *)

Section Evapotranspiration.

(** Variables of the enclosing scope: day ordinal, altitude and the
    longitude offset [l=(longz-longm)*-1]. *)
Variables (t : Z) (alt : R) (l : R).

Definition sigma_h : R := 2.043 * / (10 ^ 10).
Definition Vvent : R := 0.27 * (4.87 / ln (67.8 * 2 - 5.42)).
Definition Pa : R := 101.3 * Rpower ((293 - 0.0065 * alt) / 293) 5.26.
Definition gamma : R := 0.000665 * Pa.
Definition dr : R := 1 + 0.033 * cos ((2 * PI / 365) * IZR t).
Definition d : R := 0.409 * sin ((2 * PI / 365) * IZR t - 1.39).

Definition th : list R :=
  [0.5; 1.5; 2.5; 3.5; 4.5; 5.5; 6.5; 7.5; 8.5; 9.5; 10.5; 11.5; 12.5; 13.5;
   14.5; 15.5; 16.5; 17.5; 18.5; 19.5; 20.5; 21.5; 22.5; 23.5].

(** [w>-ws and w<ws], false when [ws] is not a number. *)
Definition is_day (w : R) (ws : option R) : bool :=
  match ws with
  | Some a => if Rlt_dec (- a) w then if Rlt_dec w a then true else false else false
  | None => false
  end.

(** Body of the hourly loop of [Evapo], up to [ETwind] and [ETrad];
    [phi], [b] and [Sc], computed once before the loop, are repeated here,
    and [print(Tmean)] is left out. *)
Definition ET_terms (Tair Gh Ha : list R) (lat alb : R) (i : nat) : result (R * R) :=
  let phi := (PI / 180) * lat in
  let b := 2 * PI * (IZR t - 81) / 364 in
  let Sc := 0.1645 * sin (2 * b) - 0.1255 * cos b - 0.025 * sin b in
  ta <- index Tair i ;;
  let Tmean := ta - 273.3 in
  gh <- index Gh i ;;
  let Rs := gh * 0.0036 in
  let Rns := (1 - alb) * Rs in
  let delta := 4098 * (0.6108 * Rpower np_e (17.27 * Tmean / (Tmean + 237.3)))
               / (Tmean + 237.3) ^ 2 in
  let DTjour := delta / (delta + gamma * (1 + 0.24 * Vvent)) in
  let DTnuit := delta / (delta + gamma * (1 + 0.96 * Vvent)) in
  let PTjour := gamma / (delta + gamma * (1 + 0.24 * Vvent)) in
  let PTnuit := gamma / (delta + gamma * (1 + 0.96 * Vvent)) in
  let TT := (37 / (Tmean + 273)) * Vvent in
  let es := 0.6108 * Rpower np_e ((17.27 * Tmean) / (Tmean + 237.3)) in
  Hum <- index Ha i ;;
  let ea := es * (Hum / 100) in
  thi <- index th i ;;
  let w := (PI / 12) * ((thi + 0.06667 * l + Sc) - 12) in
  let ws := np_arccos (- tan phi * tan d) in
  let w1 := w - PI / 24 in
  let w2 := w + PI / 24 in
  Ok (if is_day w ws then
        let Ra := (12 * 60 / PI) * 0.0820 * dr
                  * ((w2 - w1) * sin phi * sin d
                     + cos phi * cos d * (sin w2 - sin w1)) in
        let Rso := (0.75 + (2 * / (10 ^ 5)) * alt) * Ra in
        let Rnl := sigma_h * ((Tmean + 273.16) ^ 4) * (0.34 - 0.14 * sqrt ea)
                   * (1.35 * (Rs / Rso) - 0.35) in
        let Rn := Rns - Rnl in
        let G := 0.1 * Rn in
        let Rng := 0.408 * Rn - G in
        let ETrad := DTjour * Rng in
        let ETwind := PTjour * TT * (es - ea) in
        (ETwind, ETrad)
      else
        let Ra := 0 in
        let Rso := (0.75 + (2 * / (10 ^ 5)) * alt) * Ra in
        let Rnl := sigma_h * ((Tmean + 273.16) ^ 4) * (0.34 - 0.14 * sqrt ea)
                   * (1.35 * 0.8 - 0.35) in
        let Rn := Rns - Rnl in
        let G := 0.5 * Rn in
        let Rng := 0.408 * Rn - G in
        let ETrad := DTnuit * Rng in
        let ETwind := PTnuit * TT * (es - ea) in
        (ETwind, ETrad)).

(** The whole body: the conversion to an energy flux and the clamp. *)
Definition Evapo_hour (Tair Gh Ha : list R) (lat alb : R) (i : nat) : result R :=
  x <- ET_terms Tair Gh Ha lat alb i ;;
  let '(ETwind, ETrad) := x in
  let ET0 := (ETwind + ETrad) * 2260000 / 3600 in
  Ok (if Rlt_dec ET0 0 then 0 else ET0).

Definition Evapo (Tair Gh Ha : list R) (lat alb : R) : result (list R) :=
  mapM (Evapo_hour Tair Gh Ha lat alb) (seq 0 24).

End Evapotranspiration.

(** ** Thermal equilibrium solver *)

(** Messages pushed by [compute_temp]. *)
Inductive info : Type :=
| EquilibriumReached (count : nat)
| EquilibriumFailed (id : Z).

Definition hc : R := 5.
Definition sigma : R := 5.67e-08.
Definition threshold : R := 0.5.

Definition thermal_equation (x A B C : R) : R := A + (B * x) + (C * (x ^ 4)).

Definition row_B (lambd ep Cv : R) : R := hc + (lambd / ep) + (Cv * ep / 3600).
Definition row_C (em : R) : R := em * sigma.

Definition compute_A (Shadow Gh alb em Tsky Tair lambd ep Cv ET0 kc Tint T0 : R) : R :=
  let a0 := - ((0.8 * Gh * Shadow * (1 - alb)) + (0.2 * Gh * (1 - alb))) in
  let a1 := (em * sigma) * - (Tsky ^ 4) in
  let a2 := - hc * Tair in
  let a3 := - (lambd / ep) * Tint in
  let a4 := - (Cv * ep / 3600) * T0 in
  let a5 := ET0 * kc in
  a0 + a1 + a2 + a3 + a4 + a5.

Section Solver.

(** [optimize.root(thermal_equation, x0, (A, B, C)).x[0]] *)
Variable root : R -> R -> R -> R -> R.

Section ComputeTemp.

Variables (id : Z) (FixedTemp : R) (Shadow : list R) (B C : R).
Variables (Gh : list R) (alb em : R) (Tsky Tair : list R).
Variables (lambd ep Cv : R) (ET0 Tint : list R) (kc : R).

(** Body of [for h in range(24)] for one hour. *)
Definition hour_step (T0 : R) (Temp_DegC : list R) (h : nat) : result (list R) :=
  sh <- index Shadow h ;;
  gh <- index Gh h ;;
  ts <- index Tsky h ;;
  ta <- index Tair h ;;
  et <- index ET0 h ;;
  ti <- index Tint h ;;
  if (h =? 0)%nat then
    let A := compute_A sh gh alb em ts ta lambd ep Cv et kc ti T0 in
    setitem Temp_DegC h (root (T0 - 0.5) A B C)
  else
    prev <- index Temp_DegC (h - 1) ;;
    let A := compute_A sh gh alb em ts ta lambd ep Cv et kc ti prev in
    if Rlt_dec 0.4 sh
    then setitem Temp_DegC h (root (prev + 1.0) A B C)
    else setitem Temp_DegC h (root (prev - 0.5) A B C).

Fixpoint for_hours (hs : list nat) (T0 : R) (Temp_DegC : list R) : result (list R) :=
  match hs with
  | [] => Ok Temp_DegC
  | h :: hs' => t <- hour_step T0 Temp_DegC h ;; for_hours hs' T0 t
  end.

(** One 24-hour pass. *)
Definition day_pass (T0 : R) (Temp_DegC : list R) : result (list R) :=
  for_hours (seq 0 24) T0 Temp_DegC.

(** [while equilibrium==False], with at most [fuel] passes.  The
    result is the list, the value of [count] and the message pushed. *)
Fixpoint while_loop (fuel count : nat) (T0 : R) (Temp_DegC : list R)
  : result (list R * nat * list info) :=
  match fuel with
  | O => Timeout
  | S fuel' =>
      t <- day_pass T0 Temp_DegC ;;
      let count := (count + 1)%nat in
      t23 <- index t 23 ;;
      if (2 <=? count)%nat then
        if Rlt_dec (Rabs (t23 - T0)) threshold
        then Ok (t, count, [EquilibriumReached count])
        else if (count =? 25)%nat
             then Ok (t, count, [EquilibriumFailed id])
             else while_loop fuel' count t23 t
      else while_loop fuel' count t23 t
  end.

Definition compute_temp_fuel (fuel : nat) : result (list R * list info) :=
  let Temp_DegC := repeat 0 24 in
  if Req_dec_T FixedTemp 0 then
    let T0 := 28 + 273.15 in
    r <- while_loop fuel 0 T0 Temp_DegC ;;
    let '(t, _, log) := r in
    Ok (map (fun T => round2 (T - 273.15)) t, log)
  else Ok (map (fun _ => FixedTemp) Temp_DegC, []).

(** Twenty-five passes are the most the loop makes. *)
Definition compute_temp : result (list R * list info) :=
  compute_temp_fuel 25.

End ComputeTemp.

End Solver.

(** ** Point tables *)

(** Insertion sort, for the order of the groups of [groupby] and for
    [sort_values].  It keeps rows with equal keys in their order, which the
    default algorithm of [sort_values] does not promise; [pts_matrix] only
    depends on the order of the rows of one id, which have distinct hours
    when the ids of the features are distinct. *)
Fixpoint insert_sorted {A : Type} (le : A -> A -> bool) (a : A) (l : list A) : list A :=
  match l with
  | [] => [a]
  | b :: l' => if le a b then a :: l else b :: insert_sorted le a l'
  end.

Fixpoint isort {A : Type} (le : A -> A -> bool) (l : list A) : list A :=
  match l with
  | [] => []
  | a :: l' => insert_sorted le a (isort le l')
  end.

(** A feature of the point layer ([Spatial_index_4]). *)
Record attrs : Type := {
  pt_id : Z;
  pt_x : R;
  pt_y : R;
  pt_Material : string;
  pt_alb : R;
  pt_em : R;
  pt_Cv : R;
  pt_lambd : R;
  pt_ep : R;
  pt_kc : R;
  pt_FixedTemp : R;    (* FixedTemp[degC] *)
  pt_Long : R;
  pt_Lat : R
}.

(** A row of [Step_4/Temp/<h>.csv]: the feature and its sampled value. *)
Record sample : Type := {
  s_pt : attrs;
  s_Shadow1 : R
}.

(** A row of [Pts_list]. *)
Record pts_row : Type := {
  r_pt : attrs;
  r_Shadow1 : R;
  r_hour : Z
}.

(** A row of [pts_matrix]. *)
Record point : Type := {
  pt : attrs;
  Shadow1 : list R
}.

(** A shadow raster of [Step_3] that passes the file-name filter: the hour
    read from its name and the value it gives at each feature. *)
Definition raster_file : Type := (Z * (attrs -> R))%type.

(** The directory [Step_4/Temp]: the table stored in [<h>.csv], if any. *)
Definition tempdir : Type := Z -> option (list sample).

Definition to_csv (dir : tempdir) (h : Z) (t : list sample) : tempdir :=
  fun k => if (k =? h)%Z then Some t else dir k.

Definition read_csv_temp (dir : tempdir) (h : Z) : result (list sample) :=
  match dir h with
  | Some t => Ok t
  | None => Raise FileNotFoundError
  end.

(** [native:rastersampling] with [COLUMN_PREFIX] ['Shadow']. *)
Definition rastersampling (layer : list attrs) (raster : attrs -> R) : list sample :=
  map (fun p => {| s_pt := p; s_Shadow1 := raster p |}) layer.

(** [for file in os.scandir(...)]: the state is [Shadow_h], [last_saved]
    and the directory. *)
Fixpoint scan_rasters (layer : list attrs) (files : list raster_file)
    (Shadow_h : list Z) (last_saved : option Z) (dir : tempdir)
  : list Z * option Z * tempdir :=
  match files with
  | [] => (Shadow_h, last_saved, dir)
  | (h, raster) :: files' =>
      scan_rasters layer files' (Shadow_h ++ [h]) (Some h)
                   (to_csv dir h (rastersampling layer raster))
  end.

(** [other_hours["Shadow1"]=0]. *)
Definition set_shadow_0 (t : list sample) : list sample :=
  map (fun r => {| s_pt := s_pt r; s_Shadow1 := 0 |}) t.

(** [for h in range(24): if not(h+1 in Shadow_h): other_hours.to_csv(...)]. *)
Fixpoint write_night (hs : list nat) (Shadow_h : list Z) (other_hours : list sample)
    (dir : tempdir) : tempdir :=
  match hs with
  | [] => dir
  | h :: hs' =>
      let h1 := Z.of_nat (h + 1) in
      if existsb (Z.eqb h1) Shadow_h
      then write_night hs' Shadow_h other_hours dir
      else write_night hs' Shadow_h other_hours (to_csv dir h1 other_hours)
  end.

(** [temp["hour"]=h+1] and the rows appended to [ComputedPoints.csv]. *)
Fixpoint group_csv (hs : list nat) (dir : tempdir) : result (list pts_row) :=
  match hs with
  | [] => Ok []
  | h :: hs' =>
      let h1 := Z.of_nat (h + 1) in
      temp <- read_csv_temp dir h1 ;;
      rest <- group_csv hs' dir ;;
      Ok (map (fun r => {| r_pt := s_pt r; r_Shadow1 := s_Shadow1 r; r_hour := h1 |}) temp
          ++ rest)
  end.

(** Lines 226-276: from the rasters to [Pts_list]. *)
Definition shadow_table (layer : list attrs) (files : list raster_file) (dir0 : tempdir)
  : result (list pts_row) :=
  let '(Shadow_h, last_saved, dir) := scan_rasters layer files [] None dir0 in
  h <- match last_saved with
       | Some h => Ok h
       | None => Raise UnboundLocalError
       end ;;
  other_hours <- read_csv_temp dir h ;;
  let other_hours := set_shadow_0 other_hours in
  let dir := write_night (seq 0 24) Shadow_h other_hours dir in
  group_csv (seq 0 24) dir.

(** [Pts_list.sort_values(by=["hour"]).groupby(by=["id"]).agg({...'first',
    'Shadow1':list})]: one row per id, in increasing order of id. *)
Definition sort_by_hour (rows : list pts_row) : list pts_row :=
  isort (fun a b => (r_hour a <=? r_hour b)%Z) rows.

Definition ids_of (rows : list pts_row) : list Z :=
  isort Z.leb (nodup Z.eq_dec (map (fun r => pt_id (r_pt r)) rows)).

Definition pts_matrix (Pts_list : list pts_row) : list point :=
  let sorted := sort_by_hour Pts_list in
  flat_map
    (fun i =>
       match filter (fun r => (pt_id (r_pt r) =? i)%Z) sorted with
       | [] => []
       | r :: g => [ {| pt := r_pt r; Shadow1 := map r_Shadow1 (r :: g) |} ]
       end)
    (ids_of Pts_list).

(** ** Simplification of the problem, solving and broadcasting *)

(** A row of [simplified] once the temperatures are computed. *)
Record solved : Type := {
  sv_key : string;
  sv_id : Z;
  Temp_DegC : list R;
  min_DegC : R;
  mean_DegC : R;
  max_DegC : R
}.

(** A row of [output]; the four result columns are empty when the left
    merge finds no row of [simplified] with the point's key. *)
Record out_row : Type := {
  o_id : Z;
  o_x : R;
  o_y : R;
  o_result : option (list R * R * R * R)
}.

Section Pipeline.

Variable root : R -> R -> R -> R -> R.

(** [str] of a tuple of floats. *)
Variable str_tuple : list R -> string.

(** The row [pd.read_csv] builds from the fields of a line. *)
Variable parse_row : list string -> weather_row.

(** [pts_matrix.Material.astype(str)+'-'+pts_matrix.Shadow1.astype(str)] *)
Definition key (p : point) : string :=
  (pt_Material (pt p) ++ "-" ++ str_tuple (Shadow1 p))%string.

(** [pts_matrix.groupby(by=["key"]).agg({... 'first'})]: the first row of
    each group, the groups in increasing order of key.  (['first'] takes
    the first value that is not null, column by column; the reals have no
    null value.) *)
Definition keys_of (pts : list point) : list string :=
  isort String.leb (nodup string_dec (map key pts)).

Definition simplified (pts : list point) : list point :=
  flat_map
    (fun k =>
       match filter (fun p => (key p =? k)%string) pts with
       | [] => []
       | p :: _ => [p]
       end)
    (keys_of pts).

(** [pd.read_csv(..., skiprows=first_row, header=None, names=names)] *)
Definition read_csv (rows : list (list string)) (skiprows : nat) : list weather_row :=
  map parse_row (skipn skiprows rows).

(** [simplified.apply(lambda row: compute_temp(...), axis=1)] for one row. *)
Definition solve_row (Gh Tsky Tair : list R) (r : point) (ETO Ti : list R)
  : result (list R * list info) :=
  let a := pt r in
  compute_temp root (pt_id a) (pt_FixedTemp a) (Shadow1 r)
    (row_B (pt_lambd a) (pt_ep a) (pt_Cv a)) (row_C (pt_em a))
    Gh (pt_alb a) (pt_em a) Tsky Tair (pt_lambd a) (pt_ep a) (pt_Cv a)
    ETO Ti (pt_kc a).

(** The table [simplified] with its result columns. *)
Fixpoint add_columns (rs : list point) (temps : list (list R)) (mins means maxs : list R)
  : list solved :=
  match rs, temps, mins, means, maxs with
  | r :: rs', t :: temps', lo :: mins', m :: means', hi :: maxs' =>
      {| sv_key := key r; sv_id := pt_id (pt r); Temp_DegC := t;
         min_DegC := lo; mean_DegC := m; max_DegC := hi |}
      :: add_columns rs' temps' mins' means' maxs'
  | _, _, _, _, _ => []
  end.

(** [pts_matrix.merge(simplified..., how='left', on='key').filter(...)] *)
Definition merge (pts : list point) (sim : list solved) : list out_row :=
  flat_map
    (fun p =>
       let a := pt p in
       match filter (fun r => (sv_key r =? key p)%string) sim with
       | [] => [ {| o_id := pt_id a; o_x := pt_x a; o_y := pt_y a; o_result := None |} ]
       | ms => map (fun r => {| o_id := pt_id a; o_x := pt_x a; o_y := pt_y a;
                                o_result := Some (Temp_DegC r, min_DegC r,
                                                  mean_DegC r, max_DegC r) |}) ms
       end)
    pts.

(** Lines 283-523: from [pts_matrix] and the lines of the weather file to
    the rows of [output] and the messages of the solver. *)
Definition temperatures (pts : list point) (rows : list (list string))
    (month day : Z) (alt longz : R) : result (list out_row * list info) :=
  let sim := simplified pts in
  i <- first_row rows ;;
  let WeatherData := read_csv rows i in
  let Tair := AirTemp WeatherData month day in
  let Gh := SolarRadiation WeatherData month day in
  let Tsky := SkyTemp WeatherData month day in
  let Ha := Humidity WeatherData month day in
  let t := day_ordinal month day in
  let Ty := Tyear WeatherData in
  dT <- deltaT WeatherData ;;
  Tints <- mapM (fun r => Tint t Ty dT (Dh_of (pt_lambd (pt r)) (pt_Cv (pt r)))) sim ;;
  let longm := np_mean (map (fun p => pt_Long (pt p)) pts) in
  let longz := if Rlt_dec 170 longz
               then if Rlt_dec longm 0 then longz * -1 else longz
               else longz in
  let l := (longz - longm) * -1 in
  ETOs <- mapM (fun r => Evapo t alt l Tair Gh Ha (pt_Lat (pt r)) (pt_alb (pt r))) sim ;;
  res <- mapM (fun x => solve_row Gh Tsky Tair (fst x) (fst (snd x)) (snd (snd x)))
              (combine sim (combine ETOs Tints)) ;;
  let temps := map fst res in
  mins <- mapM py_min temps ;;
  means <- mapM statistics_mean temps ;;
  maxs <- mapM py_max temps ;;
  Ok (merge pts (add_columns sim temps mins (map round2 means) maxs),
      List.concat (map snd res)).

(** Lines 226-523. *)
Definition shadows_and_temperatures (layer : list attrs) (files : list raster_file)
    (dir0 : tempdir) (rows : list (list string)) (month day : Z) (alt longz : R)
  : result (list out_row * list info) :=
  Pts_list <- shadow_table layer files dir0 ;;
  temperatures (pts_matrix Pts_list) rows month day alt longz.

End Pipeline.

(** ** Entry of [processAlgorithm] *)

(** [s.split(sep)[0]] *)
Fixpoint split_head (sep : ascii) (s : string) : string :=
  match s with
  | EmptyString => EmptyString
  | String c s' => if Ascii.eqb c sep then EmptyString else String c (split_head sep s')
  end.

(** [sub in s] *)
Fixpoint contains (sub s : string) : bool :=
  prefix sub s ||
  match s with
  | EmptyString => false
  | String _ s' => contains sub s'
  end.

Definition msg_result_layer : string :=
  "Result layer detected in your QGIS project, please remove it before launching any calculation".

Definition msg_exit : string := "result layer already in QGIS project".

(** [for path in existing_layers_paths]: the outcome and the messages
    pushed. *)
Fixpoint check_paths (paths : list string) : result unit * list string :=
  match paths with
  | [] => (Ok tt, [])
  | path :: paths' =>
      if contains "ComputedPoints.csv" path
      then (Raise (SystemExit msg_exit), [msg_result_layer])
      else check_paths paths'
  end.

(** [processAlgorithm]: [fuseau_list] is the column ['Longitude'] of
    [Fuseaux_horaires.csv], [uris] the [dataSourceUri()] of the layers of
    the project, and [rest] everything from line 77 on (the grid, the
    shadow tables, the weather data, the solver and the output file),
    given [longz]; it returns its outcome and the messages it pushes. *)
Definition processAlgorithm {A : Type} (fuseau_list : list R) (fuseau : nat)
    (uris : list string) (rest : R -> result A * list string)
  : result A * list string :=
  match index fuseau_list fuseau with
  | Raise e => (Raise e, [])
  | Timeout => (Timeout, [])
  | Ok longz =>
      let existing_layers_paths := map (split_head "|") uris in
      match check_paths existing_layers_paths with
      | (Ok _, log) => let (r, log') := rest longz in (r, log ++ log')
      | (Raise e, log) => (Raise e, log)
      | (Timeout, log) => (Timeout, log)
      end
  end.

(** ** The passes of the solver, one after the other

    [passes k] is the state of [compute_temp] after [k] passes of the
    [while] loop made without the convergence test: the value of [T0] and
    the list [Temp_DegC]. *)

Section SolverViews.

Variable root : R -> R -> R -> R -> R.
Variables (Shadow : list R) (B C : R).
Variables (Gh : list R) (alb em : R) (Tsky Tair : list R).
Variables (lambd ep Cv : R) (ET0 Tint : list R) (kc : R).

Fixpoint passes (k : nat) : result (R * list R) :=
  match k with
  | O => Ok (28 + 273.15, repeat 0 24)
  | S k' =>
      s <- passes k' ;;
      t <- day_pass root Shadow B C Gh alb em Tsky Tair lambd ep Cv ET0 Tint kc
             (fst s) (snd s) ;;
      t23 <- index t 23 ;;
      Ok (t23, t)
  end.

(** The temperature of the hour before [h]: [T0] at [h = 0]. *)
Definition T_prev (T0 : R) (hist : list R) (h : nat) : R :=
  if (h =? 0)%nat then T0 else nth (h - 1) hist 0.

(** The coefficient [A] and the initial guess of hour [h]. *)
Definition A_hour (T0 : R) (hist : list R) (h : nat) : R :=
  compute_A (nth h Shadow 0) (nth h Gh 0) alb em (nth h Tsky 0) (nth h Tair 0)
            lambd ep Cv (nth h ET0 0) kc (nth h Tint 0) (T_prev T0 hist h).

Definition guess (T0 : R) (hist : list R) (h : nat) : R :=
  if (h =? 0)%nat then T0 - 0.5
  else if Rlt_dec 0.4 (nth h Shadow 0)
       then T_prev T0 hist h + 1.0
       else T_prev T0 hist h - 0.5.

(** The test [error < threshold] at the end of pass [k]. *)
Definition converged (k : nat) : Prop :=
  exists T0 Temp t23 t,
    passes (k - 1) = Ok (T0, Temp) /\ passes k = Ok (t23, t) /\
    Rabs (t23 - T0) < threshold.

(** What the loop returns when it stops after pass [n]. *)
Definition stops_at (id : Z) (n : nat) (t : list R) (log : list info) : Prop :=
  (2 <= n <= 25)%nat /\
  passes n = Ok (nth 23 t 0, t) /\
  (forall k, (2 <= k < n)%nat -> ~ converged k) /\
  ((converged n /\ log = [EquilibriumReached n]) \/
   (~ converged n /\ n = 25%nat /\ log = [EquilibriumFailed id])).

End SolverViews.

(** The raster of the last file of hour [h] in the order of the scan, and
    the value that [Pts_list] holds for a feature at hour [h]. *)
Fixpoint last_raster (files : list raster_file) (h : Z) (found : option (attrs -> R))
  : option (attrs -> R) :=
  match files with
  | [] => found
  | (h', raster) :: files' =>
      last_raster files' h (if (h' =? h)%Z then Some raster else found)
  end.

Definition shadow_at (files : list raster_file) (h : Z) (p : attrs) : R :=
  match last_raster files h None with
  | Some raster => raster p
  | None => 0
  end.

(** The hours [1..24]. *)
Definition day_hours : list Z := map (fun h => Z.of_nat (h + 1)) (seq 0 24).

(** The result columns of the row of [simplified] with key [k]. *)
Definition class_result (sim : list solved) (k : string) : list R * R * R * R :=
  match filter (fun r => (sv_key r =? k)%string) sim with
  | r :: _ => (Temp_DegC r, min_DegC r, mean_DegC r, max_DegC r)
  | [] => ([], 0, 0, 0)
  end.

(** ** Calendar dates

    The dates of a year of 365 days, against which [day_ordinal] is read. *)

Definition days_in_month (month : Z) : Z := nth (Z.to_nat (month - 1)) list_month 0%Z.

Definition valid_date (month day : Z) : Prop :=
  (1 <= month <= 12)%Z /\ (1 <= day <= days_in_month month)%Z.

(** ** The rows of [simplified] and their results

    [longitude_offset] is [l], computed at lines 366-371; [row_solved] says
    how the result columns of a row [s] of [simplified] come from the row
    [r] of the group: [fE], [fT] and [fS] stand for the functions applied
    to the rows for the columns [ETO], [Tint] and [Temp_DegC]. *)

Definition longitude_offset (pts : list point) (longz : R) : R :=
  let longm := np_mean (map (fun p => pt_Long (pt p)) pts) in
  let longz := if Rlt_dec 170 longz
               then if Rlt_dec longm 0 then longz * -1 else longz
               else longz in
  (longz - longm) * -1.

Definition row_solved (str_tuple : list R -> string)
    (fE fT : point -> result (list R))
    (fS : point * (list R * list R) -> result (list R * list info))
    (r : point) (s : solved) : Prop :=
  sv_key s = key str_tuple r /\ sv_id s = pt_id (pt r) /\
  exists ETO Ti log avg,
    fE r = Ok ETO /\ fT r = Ok Ti /\
    fS (r, (ETO, Ti)) = Ok (Temp_DegC s, log) /\
    py_min (Temp_DegC s) = Ok (min_DegC s) /\
    statistics_mean (Temp_DegC s) = Ok avg /\ mean_DegC s = round2 avg /\
    py_max (Temp_DegC s) = Ok (max_DegC s).

(** ** Sample inputs

    A root finder that returns a root of the equation whenever the
    equation has one, and the inputs of a class with constant weather. *)

Definition root_choice (x0 A B C : R) : R :=
  epsilon (inhabits 0) (fun x => thermal_equation x A B C = 0).

Definition hours (v : R) : list R := repeat v 24.

Definition sample_parse (fields : list string) : weather_row :=
  {| w_month := 7; w_day := 21; w_hour := 12;
     DryBulb := 20; RelHum := 50; GlobHorRad := 500 |}.

Definition sample_rows : list (list string) := repeat ["2020"%string] 24.

Definition sample_attrs (i : Z) : attrs :=
  {| pt_id := i; pt_x := 0; pt_y := 0; pt_Material := "Concrete";
     pt_alb := 0.3; pt_em := 0.9; pt_Cv := 2000000; pt_lambd := 1; pt_ep := 0.1;
     pt_kc := 0.9; pt_FixedTemp := 0; pt_Long := 2; pt_Lat := 45 |}.

Definition sample_pts : list point :=
  [ {| pt := sample_attrs 1; Shadow1 := hours 1 |};
    {| pt := sample_attrs 2; Shadow1 := hours 1 |} ].

Definition sample_layer : list attrs := [sample_attrs 1; sample_attrs 2].

(** One raster, for hour 12, fully sunlit everywhere. *)
Definition sample_files : list raster_file := [(12%Z, fun _ : attrs => 1)].

(** * Properties *)

(** ** Indexing and mapping *)

Lemma index_Ok {A : Type} (l : list A) (i : nat) (d : A) :
  (i < List.length l)%nat -> index l i = Ok (nth i l d).
Proof.
  intros H. unfold index.
  rewrite (nth_error_nth' l d H). reflexivity.
Qed.

Lemma index_Raise {A : Type} (l : list A) (i : nat) :
  (List.length l <= i)%nat -> index l i = Raise IndexError.
Proof.
  intros H. unfold index.
  apply nth_error_None in H. rewrite H. reflexivity.
Qed.

Lemma setitem_Ok {A : Type} (l : list A) (i : nat) (v : A) :
  (i < List.length l)%nat ->
  exists l', setitem l i v = Ok l' /\ List.length l' = List.length l /\
             (forall d, nth i l' d = v) /\
             (forall j d, j <> i -> nth j l' d = nth j l d).
Proof.
  revert i. induction l as [|a l IH]; intros i H; simpl in H; [lia|].
  destruct i as [|i]; simpl.
  - exists (v :: l). repeat split; auto.
    intros [|j] d' Hj; [congruence | reflexivity].
  - destruct (IH i) as (l' & E & Hlen & Hi & Hj); [lia|].
    rewrite E. simpl. exists (a :: l'). repeat split; simpl; auto.
    intros [|j] d' Hne; [reflexivity | apply Hj; lia].
Qed.

Lemma mapM_Ok {A B : Type} (f : A -> result B) (g : A -> B) (l : list A) :
  (forall a, In a l -> f a = Ok (g a)) -> mapM f l = Ok (map g l).
Proof.
  induction l as [|a l IH]; intros H; simpl; [reflexivity|].
  rewrite (H a) by (left; reflexivity). simpl.
  rewrite IH by (intros; apply H; right; assumption). reflexivity.
Qed.

Lemma mapM_inv {A B : Type} (f : A -> result B) (l : list A) (bs : list B) :
  mapM f l = Ok bs -> Forall2 (fun a b => f a = Ok b) l bs.
Proof.
  revert bs. induction l as [|a l IH]; intros bs H; simpl in H.
  - inversion H. constructor.
  - destruct (f a) as [b| |] eqn:E; simpl in H; try discriminate.
    destruct (mapM f l) as [bs'| |]; simpl in H; try discriminate.
    inversion H; subst. constructor; auto.
Qed.

Lemma mapM_length {A B : Type} (f : A -> result B) (l : list A) (bs : list B) :
  mapM f l = Ok bs -> List.length bs = List.length l.
Proof.
  intros H. apply mapM_inv in H. symmetry. exact (Forall2_length H).
Qed.

Lemma nth_map_seq (f : nat -> R) (n h : nat) :
  (h < n)%nat -> nth h (map f (seq 0 n)) 0 = f h.
Proof.
  intros H. rewrite (nth_indep _ 0 (f 0%nat)) by (rewrite length_map, length_seq; exact H).
  rewrite map_nth, seq_nth by exact H. reflexivity.
Qed.

Lemma Forall2_nth_error_r {A B : Type} (P : A -> B -> Prop) (l : list A) (bs : list B) :
  Forall2 P l bs ->
  forall i b, nth_error bs i = Some b -> exists a, nth_error l i = Some a /\ P a b.
Proof.
  induction 1 as [|a b l bs Hab _ IH]; intros i b' Hi.
  - destruct i; discriminate.
  - destruct i as [|i]; simpl in *.
    + inversion Hi; subst. eauto.
    + apply IH. exact Hi.
Qed.

Lemma mapM_total {A B : Type} (f : A -> result B) (l : list A) :
  (forall a, In a l -> exists b, f a = Ok b) -> exists bs, mapM f l = Ok bs.
Proof.
  induction l as [|a l IH]; intros H; simpl; [eauto|].
  destruct (H a) as [b E]; [left; reflexivity|]. rewrite E. simpl.
  destruct IH as [bs E']; [intros; apply H; right; assumption|].
  rewrite E'. simpl. eauto.
Qed.

(** ** One pass of the solver *)

Section SolverFacts.

Variable root : R -> R -> R -> R -> R.
Variables (id : Z) (Shadow : list R) (B C : R).
Variables (Gh : list R) (alb em : R) (Tsky Tair : list R).
Variables (lambd ep Cv : R) (ET0 Tint : list R) (kc : R).

Hypothesis len_Shadow : (24 <= List.length Shadow)%nat.
Hypothesis len_Gh : (24 <= List.length Gh)%nat.
Hypothesis len_Tsky : (24 <= List.length Tsky)%nat.
Hypothesis len_Tair : (24 <= List.length Tair)%nat.
Hypothesis len_ET0 : (24 <= List.length ET0)%nat.
Hypothesis len_Tint : (24 <= List.length Tint)%nat.

Local Abbreviation hour_step' := (hour_step root Shadow B C Gh alb em Tsky Tair lambd ep Cv ET0 Tint kc).
Local Abbreviation for_hours' := (for_hours root Shadow B C Gh alb em Tsky Tair lambd ep Cv ET0 Tint kc).
Local Abbreviation day_pass' := (day_pass root Shadow B C Gh alb em Tsky Tair lambd ep Cv ET0 Tint kc).
Local Abbreviation while_loop' := (while_loop root id Shadow B C Gh alb em Tsky Tair lambd ep Cv ET0 Tint kc).
Local Abbreviation passes' := (passes root Shadow B C Gh alb em Tsky Tair lambd ep Cv ET0 Tint kc).
Local Abbreviation A_hour' := (A_hour Shadow Gh alb em Tsky Tair lambd ep Cv ET0 Tint kc).
Local Abbreviation guess' := (guess Shadow).
Local Abbreviation converged' := (converged root Shadow B C Gh alb em Tsky Tair lambd ep Cv ET0 Tint kc).
Local Abbreviation stops_at' := (stops_at root Shadow B C Gh alb em Tsky Tair lambd ep Cv ET0 Tint kc id).

Lemma T_prev_ext (T0 : R) (hist hist' : list R) (h : nat) :
  (forall j, (j < h)%nat -> nth j hist 0 = nth j hist' 0) ->
  T_prev T0 hist h = T_prev T0 hist' h.
Proof.
  intros H. unfold T_prev. destruct h as [|h]; simpl; [reflexivity|].
  rewrite Nat.sub_0_r. apply H. lia.
Qed.

Lemma A_hour_ext (T0 : R) (hist hist' : list R) (h : nat) :
  (forall j, (j < h)%nat -> nth j hist 0 = nth j hist' 0) ->
  A_hour' T0 hist h = A_hour' T0 hist' h.
Proof. intros H. unfold A_hour. rewrite (T_prev_ext T0 hist hist' h H). reflexivity. Qed.

Lemma guess_ext (T0 : R) (hist hist' : list R) (h : nat) :
  (forall j, (j < h)%nat -> nth j hist 0 = nth j hist' 0) ->
  guess' T0 hist h = guess' T0 hist' h.
Proof. intros H. unfold guess. rewrite (T_prev_ext T0 hist hist' h H). reflexivity. Qed.

Lemma hour_step_spec (T0 : R) (Temp : list R) (h : nat) :
  (h < 24)%nat -> List.length Temp = 24%nat ->
  exists t, hour_step' T0 Temp h = Ok t /\ List.length t = 24%nat /\
            nth h t 0 = root (guess' T0 Temp h) (A_hour' T0 Temp h) B C /\
            (forall j, j <> h -> nth j t 0 = nth j Temp 0).
Proof.
  intros Hh HT. unfold hour_step.
  rewrite (index_Ok Shadow h 0), (index_Ok Gh h 0), (index_Ok Tsky h 0),
    (index_Ok Tair h 0), (index_Ok ET0 h 0), (index_Ok Tint h 0) by lia.
  simpl. unfold guess, A_hour, T_prev.
  destruct (h =? 0)%nat eqn:E0.
  - destruct (setitem_Ok Temp h (root (T0 - 0.5)
        (compute_A (nth h Shadow 0) (nth h Gh 0) alb em (nth h Tsky 0) (nth h Tair 0)
           lambd ep Cv (nth h ET0 0) kc (nth h Tint 0) T0) B C))
      as (t & E & Hl & Hn & Hj); [lia|].
    exists t. rewrite E. repeat split; auto; lia.
  - apply Nat.eqb_neq in E0.
    rewrite (index_Ok Temp (h - 1) 0) by lia. simpl.
    destruct (Rlt_dec 0.4 (nth h Shadow 0)).
    + match goal with |- context [setitem Temp h ?v] =>
        destruct (setitem_Ok Temp h v) as (t & E & Hl & Hn & Hj); [lia|] end.
      exists t. rewrite E. repeat split; auto; lia.
    + match goal with |- context [setitem Temp h ?v] =>
        destruct (setitem_Ok Temp h v) as (t & E & Hl & Hn & Hj); [lia|] end.
      exists t. rewrite E. repeat split; auto; lia.
Qed.

Lemma for_hours_spec (n m : nat) (T0 : R) (Temp : list R) :
  (m + n <= 24)%nat -> List.length Temp = 24%nat ->
  exists t, for_hours' (seq m n) T0 Temp = Ok t /\ List.length t = 24%nat /\
            (forall h, (m <= h < m + n)%nat ->
                       nth h t 0 = root (guess' T0 t h) (A_hour' T0 t h) B C) /\
            (forall j, (j < m \/ m + n <= j)%nat -> nth j t 0 = nth j Temp 0).
Proof.
  revert m Temp. induction n as [|n IH]; intros m Temp Hm HT; simpl.
  - exists Temp. repeat split; auto. intros h Hh. lia.
  - destruct (hour_step_spec T0 Temp m) as (t1 & E1 & L1 & N1 & J1); [lia | assumption |].
    rewrite E1. simpl.
    destruct (IH (S m) t1) as (t & E & L & N & J); [lia | assumption |].
    exists t. rewrite E. repeat split; auto.
    + intros h Hh. destruct (Nat.eq_dec h m) as [->|Hne].
      * rewrite (J m) by lia. rewrite N1.
        assert (X : forall j, (j < m)%nat -> nth j Temp 0 = nth j t 0).
        { intros j Hj. rewrite (J j) by lia. symmetry. apply J1. lia. }
        rewrite (guess_ext T0 Temp t m X), (A_hour_ext T0 Temp t m X). reflexivity.
      * apply N. lia.
    + intros j Hj. rewrite (J j) by lia. apply J1. lia.
Qed.

(** A pass succeeds, and every hour holds what the root finder returned
    for the coefficients of that hour. *)
Lemma day_pass_spec (T0 : R) (Temp : list R) :
  List.length Temp = 24%nat ->
  exists t, day_pass' T0 Temp = Ok t /\ List.length t = 24%nat /\
            forall h, (h < 24)%nat ->
                      nth h t 0 = root (guess' T0 t h) (A_hour' T0 t h) B C.
Proof.
  intros HT. destruct (for_hours_spec 24 0 T0 Temp) as (t & E & L & N & _); [lia | assumption |].
  exists t. repeat split; auto. intros h Hh. apply N. lia.
Qed.

Lemma passes_total (k : nat) :
  exists T0 t, passes' k = Ok (T0, t) /\ List.length t = 24%nat.
Proof.
  induction k as [|k (T0 & t & E & L)]; simpl.
  - eexists _, _. split; reflexivity.
  - rewrite E. simpl.
    destruct (day_pass_spec T0 t L) as (t' & E' & L' & _).
    rewrite E'. simpl. rewrite (index_Ok t' 23 0) by lia. simpl.
    eexists _, _. split; [reflexivity | assumption].
Qed.

Lemma passes_S (k : nat) (T0 : R) (Temp : list R) :
  passes' k = Ok (T0, Temp) ->
  exists t, day_pass' T0 Temp = Ok t /\ List.length t = 24%nat /\
            passes' (S k) = Ok (nth 23 t 0, t).
Proof.
  intros E. destruct (passes_total k) as (T0' & t0 & E0 & L0).
  rewrite E in E0. inversion E0; subst.
  destruct (day_pass_spec T0' t0 L0) as (t & Et & Lt & _).
  exists t. repeat split; auto.
  simpl. rewrite E. simpl. rewrite Et. simpl.
  rewrite (index_Ok t 23 0) by lia. reflexivity.
Qed.

Lemma converged_iff (k : nat) (T0 : R) (Temp t : list R) :
  passes' k = Ok (T0, Temp) -> passes' (S k) = Ok (nth 23 t 0, t) ->
  converged' (S k) <-> Rabs (nth 23 t 0 - T0) < threshold.
Proof.
  intros E E'. unfold converged. simpl Nat.sub. rewrite Nat.sub_0_r. split.
  - intros (T0' & Temp' & t23 & t' & H1 & H2 & H3).
    rewrite E in H1. rewrite E' in H2. inversion H1; inversion H2; subst. assumption.
  - intros H. exists T0, Temp, (nth 23 t 0), t. auto.
Qed.

Lemma while_loop_spec (fuel c : nat) (T0 : R) (Temp : list R) :
  (c + fuel >= 25)%nat -> (c < 25)%nat ->
  passes' c = Ok (T0, Temp) ->
  (forall k, (2 <= k <= c)%nat -> ~ converged' k) ->
  exists t n log, while_loop' fuel c T0 Temp = Ok (t, n, log) /\
                  (c < n)%nat /\ stops_at' n t log.
Proof.
  revert c T0 Temp. induction fuel as [|fuel IH]; intros c T0 Temp Hf Hc E Hnc; [lia|].
  cbn [while_loop]. destruct (passes_S c T0 Temp E) as (t & Et & Lt & ES).
  rewrite Et. cbn [bind]. rewrite (index_Ok t 23 0) by lia. cbn [bind].
  replace (c + 1)%nat with (S c) by lia.
  pose proof (converged_iff c T0 Temp t E ES) as Hiff.
  destruct (2 <=? S c)%nat eqn:E2.
  - apply Nat.leb_le in E2.
    destruct (Rlt_dec (Rabs (nth 23 t 0 - T0)) threshold) as [Hlt|Hge].
    + exists t, (S c), [EquilibriumReached (S c)]. split; [reflexivity|].
      split; [lia|]. repeat split; try lia; auto.
      * intros k Hk. apply Hnc. lia.
      * left. split; [apply Hiff; assumption | reflexivity].
    + destruct (S c =? 25)%nat eqn:E25.
      * apply Nat.eqb_eq in E25.
        exists t, (S c), [EquilibriumFailed id]. split; [reflexivity|].
        split; [lia|]. repeat split; try lia; auto.
        -- intros k Hk. apply Hnc. lia.
        -- right. repeat split; auto. intros H. apply Hge, Hiff, H.
      * apply Nat.eqb_neq in E25.
        destruct (IH (S c) (nth 23 t 0) t) as (t' & n & log & Ew & Hn & Hs);
          [lia | lia | assumption | |].
        { intros k Hk. destruct (Nat.eq_dec k (S c)) as [->|Hne].
          - intros H. apply Hge, Hiff, H.
          - apply Hnc. lia. }
        exists t', n, log. split; [assumption|]. split; [lia | assumption].
  - apply Nat.leb_gt in E2.
    destruct (IH (S c) (nth 23 t 0) t) as (t' & n & log & Ew & Hn & Hs);
      [lia | lia | assumption | |].
    { intros k Hk. lia. }
    exists t', n, log. split; [assumption|]. split; [lia | assumption].
Qed.

End SolverFacts.

(** ** The solver: claims on [compute_temp] *)



Lemma compute_A_formula (Shadow Gh alb em Tsky Tair lambd ep Cv ET0 kc Tint T0 : R) :
  compute_A Shadow Gh alb em Tsky Tair lambd ep Cv ET0 kc Tint T0 =
  - (0.8 * Gh * Shadow * (1 - alb) + 0.2 * Gh * (1 - alb))
  - em * sigma * Tsky ^ 4 - hc * Tair - (lambd / ep) * Tint
  - (Cv * ep / 3600) * T0 + ET0 * kc.
Proof. unfold compute_A. cbv zeta. unfold Rdiv. ring. Qed.

(** The loop returns after between 2 and 25 passes, and what it returns is
    the state after that many passes. *)
Lemma loop_returns (root : R -> R -> R -> R -> R) (id : Z) (FixedTemp : R)
    (Shadow : list R) (B C : R) (Gh : list R) (alb em : R) (Tsky Tair : list R)
    (lambd ep Cv : R) (ET0 Tint : list R) (kc : R) :
  FixedTemp = 0 ->
  (24 <= List.length Shadow)%nat -> (24 <= List.length Gh)%nat ->
  (24 <= List.length Tsky)%nat -> (24 <= List.length Tair)%nat ->
  (24 <= List.length ET0)%nat -> (24 <= List.length Tint)%nat ->
  exists (t : list R) (n : nat) (log : list info),
    compute_temp root id FixedTemp Shadow B C Gh alb em Tsky Tair lambd ep Cv ET0 Tint kc
    = Ok (map (fun T => round2 (T - 273.15)) t, log) /\
    (2 <= n <= 25)%nat /\
    passes root Shadow B C Gh alb em Tsky Tair lambd ep Cv ET0 Tint kc n
    = Ok (nth 23 t 0, t) /\
    List.length t = 24%nat.
Proof.
  intros HF H1 H2 H3 H4 H5 H6.
  destruct (while_loop_spec root id Shadow B C Gh alb em Tsky Tair lambd ep Cv ET0 Tint kc
              H1 H2 H3 H4 H5 H6 25 0 (28 + 273.15) (repeat 0 24))
    as (t & n & log & E & _ & Hn & Hp & _); [lia | lia | reflexivity | intros; lia |].
  assert (Hlen : List.length t = 24%nat).
  { destruct (passes_total root Shadow B C Gh alb em Tsky Tair lambd ep Cv ET0 Tint kc
                H1 H2 H3 H4 H5 H6 n) as (T0' & t' & E' & L').
    rewrite Hp in E'. inversion E'; subst. exact L'. }
  exists t, n, log. split; [|split; [|split]; assumption].
  unfold compute_temp, compute_temp_fuel.
  destruct (Req_dec_T FixedTemp 0) as [_|N]; [|contradiction].
  rewrite E. reflexivity.
Qed.

Lemma compute_temp_fixed (root : R -> R -> R -> R -> R) (id : Z) (FixedTemp : R)
    (Shadow : list R) (B C : R) (Gh : list R) (alb em : R) (Tsky Tair : list R)
    (lambd ep Cv : R) (ET0 Tint : list R) (kc : R) :
  FixedTemp <> 0 ->
  compute_temp root id FixedTemp Shadow B C Gh alb em Tsky Tair lambd ep Cv ET0 Tint kc
  = Ok (repeat FixedTemp 24, []).
Proof.
  intros H. unfold compute_temp, compute_temp_fuel.
  destruct (Req_dec_T FixedTemp 0) as [E|_]; [contradiction|].
  reflexivity.
Qed.

(** C3.  With a nonzero [FixedTemp], [compute_temp] makes no pass of the
    energy balance and pushes no message: it returns [FixedTemp] at each of
    the 24 hours, and returns the same for any other solver, weather,
    shading and coefficients of the material. *)
Theorem fixed_temp_bypass (root : R -> R -> R -> R -> R) (id : Z) (FixedTemp : R)
    (Shadow : list R) (B C : R) (Gh : list R) (alb em : R) (Tsky Tair : list R)
    (lambd ep Cv : R) (ET0 Tint : list R) (kc : R) :
  FixedTemp <> 0 ->
  compute_temp root id FixedTemp Shadow B C Gh alb em Tsky Tair lambd ep Cv ET0 Tint kc
  = Ok (repeat FixedTemp 24, []) /\
  (forall h, (h < 24)%nat -> index (repeat FixedTemp 24) h = Ok FixedTemp) /\
  forall (root' : R -> R -> R -> R -> R) (id' : Z) (Shadow' : list R) (B' C' : R)
         (Gh' : list R) (alb' em' : R) (Tsky' Tair' : list R) (lambd' ep' Cv' : R)
         (ET0' Tint' : list R) (kc' : R),
    compute_temp root' id' FixedTemp Shadow' B' C' Gh' alb' em' Tsky' Tair'
      lambd' ep' Cv' ET0' Tint' kc'
    = compute_temp root id FixedTemp Shadow B C Gh alb em Tsky Tair
        lambd ep Cv ET0 Tint kc.
Proof.
  intros H. split; [|split].
  - apply compute_temp_fixed. exact H.
  - intros h Hh. rewrite (index_Ok _ h 0) by (rewrite repeat_length; exact Hh).
    f_equal. apply nth_repeat_lt. exact Hh.
  - intros. rewrite !compute_temp_fixed by exact H. reflexivity.
Qed.

Lemma fixed_temp_bypass_witness :
  compute_temp (fun x0 _ _ _ => x0) 7 20 [] 0 0 [] 0.3 0.9 [] [] 1 0.1 2000000 [] [] 0.9
  = Ok (repeat 20 24, []).
Proof.
  apply (fixed_temp_bypass (fun x0 _ _ _ => x0) 7 20 [] 0 0 [] 0.3 0.9 [] []
           1 0.1 2000000 [] [] 0.9).
  lra.
Defined.

(** C2.  With [FixedTemp = 0] the loop of [compute_temp] stops after [n]
    passes with [2 <= n <= 25]: no pass [k] with [2 <= k < n] met
    [|Temp_DegC[23] - T0| < 0.5]; either pass [n] met it, and the message
    is the one of convergence, or [n = 25] and the message is the warning,
    which carries the [id] given to [compute_temp]. *)
Theorem compute_temp_cycles (root : R -> R -> R -> R -> R) (id : Z) (FixedTemp : R)
    (Shadow : list R) (B C : R) (Gh : list R) (alb em : R) (Tsky Tair : list R)
    (lambd ep Cv : R) (ET0 Tint : list R) (kc : R) :
  FixedTemp = 0 ->
  (24 <= List.length Shadow)%nat -> (24 <= List.length Gh)%nat ->
  (24 <= List.length Tsky)%nat -> (24 <= List.length Tair)%nat ->
  (24 <= List.length ET0)%nat -> (24 <= List.length Tint)%nat ->
  exists (t : list R) (n : nat) (log : list info),
    while_loop root id Shadow B C Gh alb em Tsky Tair lambd ep Cv ET0 Tint kc
      25 0 (28 + 273.15) (repeat 0 24) = Ok (t, n, log) /\
    compute_temp root id FixedTemp Shadow B C Gh alb em Tsky Tair lambd ep Cv ET0 Tint kc
    = Ok (map (fun T => round2 (T - 273.15)) t, log) /\
    (2 <= n <= 25)%nat /\
    passes root Shadow B C Gh alb em Tsky Tair lambd ep Cv ET0 Tint kc n
    = Ok (nth 23 t 0, t) /\
    (forall k, (2 <= k < n)%nat ->
       ~ converged root Shadow B C Gh alb em Tsky Tair lambd ep Cv ET0 Tint kc k) /\
    ((converged root Shadow B C Gh alb em Tsky Tair lambd ep Cv ET0 Tint kc n /\
      log = [EquilibriumReached n]) \/
     (~ converged root Shadow B C Gh alb em Tsky Tair lambd ep Cv ET0 Tint kc n /\
      n = 25%nat /\ log = [EquilibriumFailed id])).
Proof.
  intros HF H1 H2 H3 H4 H5 H6.
  destruct (while_loop_spec root id Shadow B C Gh alb em Tsky Tair lambd ep Cv ET0 Tint kc
              H1 H2 H3 H4 H5 H6 25 0 (28 + 273.15) (repeat 0 24))
    as (t & n & log & E & _ & Hn & Hp & Hk & Hl); [lia | lia | reflexivity | intros; lia |].
  exists t, n, log. repeat split; try assumption; try lia.
  unfold compute_temp, compute_temp_fuel.
  destruct (Req_dec_T FixedTemp 0) as [_|N]; [|contradiction].
  rewrite E. reflexivity.
Qed.

Lemma compute_temp_cycles_witness :
  exists (t : list R) (n : nat) (log : list info),
    compute_temp root_choice 7 0 (hours 1) (row_B 1 0.1 2000000) (row_C 0.9)
      (hours 500) 0.3 0.9 (hours 280) (hours 290) 1 0.1 2000000 (hours 0) (hours 285) 0.9
    = Ok (map (fun T => round2 (T - 273.15)) t, log) /\
    (2 <= n <= 25)%nat /\
    (log = [EquilibriumReached n] \/ (n = 25%nat /\ log = [EquilibriumFailed 7])).
Proof.
  destruct (compute_temp_cycles root_choice 7 0 (hours 1) (row_B 1 0.1 2000000) (row_C 0.9)
              (hours 500) 0.3 0.9 (hours 280) (hours 290) 1 0.1 2000000
              (hours 0) (hours 285) 0.9)
    as (t & n & log & _ & E & Hn & _ & _ & Hl);
    try reflexivity; try (simpl; lia).
  exists t, n, log. split; [exact E|]. split; [exact Hn|].
  destruct Hl as [[_ Hl]|[_ Hl]]; [left | right]; exact Hl.
Defined.



(** ** Evapotranspiration *)

Lemma Evapo_hour_clamp (t : Z) (alt l : R) (Tair Gh Ha : list R) (lat alb : R)
    (i : nat) (e : R) :
  Evapo_hour t alt l Tair Gh Ha lat alb i = Ok e ->
  exists ETwind ETrad,
    ET_terms t alt l Tair Gh Ha lat alb i = Ok (ETwind, ETrad) /\
    e = Rmax 0 ((ETwind + ETrad) * 2260000 / 3600).
Proof.
  unfold Evapo_hour.
  destruct (ET_terms t alt l Tair Gh Ha lat alb i) as [[ETwind ETrad]| |];
    cbn [bind]; try discriminate.
  intros H. inversion H as [He]. clear H He.
  exists ETwind, ETrad. split; [reflexivity|].
  destruct (Rlt_dec ((ETwind + ETrad) * 2260000 / 3600) 0) as [Hlt|Hge].
  - rewrite Rmax_left; lra.
  - rewrite Rmax_right; lra.
Qed.

Lemma Evapo_hour_total (t : Z) (alt l : R) (Tair Gh Ha : list R) (lat alb : R) (i : nat) :
  (i < 24)%nat ->
  (i < List.length Tair)%nat -> (i < List.length Gh)%nat ->
  (i < List.length Ha)%nat ->
  exists e, Evapo_hour t alt l Tair Gh Ha lat alb i = Ok e.
Proof.
  intros Hi H1 H2 H3. unfold Evapo_hour, ET_terms. cbv zeta.
  rewrite (index_Ok Tair i 0), (index_Ok Gh i 0), (index_Ok Ha i 0) by lia.
  rewrite (index_Ok th i 0) by (simpl; lia).
  cbn [bind].
  match goal with |- context [if ?b then _ else _] => destruct b end;
    eexists; reflexivity.
Qed.

(** C5.  [Evapo] returns 24 values, each the combined term
    [(ETwind + ETrad) * 2260000 / 3600] of its hour when that term is
    positive and 0 otherwise, so each is at least 0; and [Evapo] returns
    whenever the three hourly series have 24 entries. *)
Theorem Evapo_nonneg (t : Z) (alt l : R) (Tair Gh Ha : list R) (lat alb : R) :
  (forall ETO, Evapo t alt l Tair Gh Ha lat alb = Ok ETO ->
     List.length ETO = 24%nat /\
     Forall (fun e => 0 <= e) ETO /\
     forall i e, nth_error ETO i = Some e ->
       exists ETwind ETrad,
         ET_terms t alt l Tair Gh Ha lat alb i = Ok (ETwind, ETrad) /\
         e = Rmax 0 ((ETwind + ETrad) * 2260000 / 3600)) /\
  ((24 <= List.length Tair)%nat -> (24 <= List.length Gh)%nat ->
   (24 <= List.length Ha)%nat ->
   exists ETO, Evapo t alt l Tair Gh Ha lat alb = Ok ETO).
Proof.
  split.
  - intros ETO H. unfold Evapo in H.
    assert (Hnth : forall i e, nth_error ETO i = Some e ->
              Evapo_hour t alt l Tair Gh Ha lat alb i = Ok e).
    { pose proof (mapM_length _ _ _ H) as HL. rewrite length_seq in HL.
      apply mapM_inv in H. intros i e Hi.
      assert (Hlen : (i < 24)%nat).
      { rewrite <- HL. apply nth_error_Some. congruence. }
      destruct (Forall2_nth_error_r _ _ _ H i e Hi) as (j & Hj & Hf).
      rewrite (nth_error_nth' _ 0%nat) in Hj by (rewrite length_seq; exact Hlen).
      rewrite seq_nth in Hj by exact Hlen. simpl in Hj. inversion Hj; subst j.
      exact Hf. }
    split; [|split].
    + rewrite (mapM_length _ _ _ H). reflexivity.
    + apply Forall_forall. intros e He.
      destruct (In_nth_error _ _ He) as [i Hi].
      destruct (Evapo_hour_clamp _ _ _ _ _ _ _ _ _ _ (Hnth i e Hi)) as (a & b & _ & ->).
      apply Rmax_l.
    + intros i e Hi. exact (Evapo_hour_clamp _ _ _ _ _ _ _ _ _ _ (Hnth i e Hi)).
  - intros H1 H2 H3. unfold Evapo. apply mapM_total.
    intros i Hi. apply in_seq in Hi.
    apply Evapo_hour_total; lia.
Qed.

Lemma Evapo_nonneg_witness :
  exists ETO, Evapo 202 100 0 (hours 300) (hours 500) (hours 50) 45 0.3 = Ok ETO /\
              List.length ETO = 24%nat /\ Forall (fun e => 0 <= e) ETO.
Proof.
  destruct (Evapo_nonneg 202 100 0 (hours 300) (hours 500) (hours 50) 45 0.3) as [Hpos Htot].
  destruct Htot as [ETO E]; try (simpl; lia).
  exists ETO. split; [exact E|].
  destruct (Hpos ETO E) as (Hl & Hf & _). split; assumption.
Defined.

(** ** Ground temperature *)


Lemma day_ordinal_months (month day : Z) :
  (1 <= month <= 12)%Z ->
  day_ordinal month day
  = (fold_left Z.add (firstn (Z.to_nat (month - 1)) list_month) 0 + day)%Z.
Proof.
  intros H. unfold day_ordinal, del_from.
  destruct (month - 1 <? 0)%Z eqn:E; [apply Z.ltb_lt in E; lia|].
  simpl List.length. rewrite Z.min_l by (simpl; lia). reflexivity.
Qed.

Lemma Tint_hours (t : Z) (Tyear deltaT : list R) (Dh : R) :
  (24 <= List.length Tyear)%nat -> (24 <= List.length deltaT)%nat ->
  Tint t Tyear deltaT Dh
  = Ok (map (fun i => nth i Tyear 0
                      - nth i deltaT 0
                        * Rpower np_e (- Z_depth / sqrt (2 * Dh / w_year))
                        * cos (w_year * IZR t - Z_depth / sqrt (2 * Dh / w_year)))
            (seq 0 24)).
Proof.
  intros H1 H2. unfold Tint. cbv zeta. apply mapM_Ok.
  intros i Hi. apply in_seq in Hi.
  rewrite (index_Ok Tyear i 0), (index_Ok deltaT i 0) by lia. reflexivity.
Qed.



(** ** The result layer already loaded *)

Lemma check_paths_detects (paths : list string) :
  (exists path, In path paths /\ contains "ComputedPoints.csv" path = true) ->
  check_paths paths = (Raise (SystemExit msg_exit), [msg_result_layer]).
Proof.
  intros (path & Hin & Hc). induction paths as [|p ps IH]; [contradiction|].
  cbn [check_paths]. destruct (contains "ComputedPoints.csv" p) eqn:E; [reflexivity|].
  destruct Hin as [->|Hin]; [congruence | exact (IH Hin)].
Qed.

(** C10.  When the data source of a layer of the project, up to its first
    ['|'], contains ['ComputedPoints.csv'], [processAlgorithm] pushes the
    message asking to remove the layer and exits: nothing of what follows
    the check is run, whatever it is.  (The row of the time-zone table is
    read before the check; when that raises, the run ends there.) *)
Theorem result_layer_exit {A : Type} (fuseau_list : list R) (fuseau : nat)
    (uris : list string) (rest : R -> result A * list string) :
  (exists uri, In uri uris /\
               contains "ComputedPoints.csv" (split_head "|" uri) = true) ->
  processAlgorithm fuseau_list fuseau uris rest
  = match index fuseau_list fuseau with
    | Ok _ => (Raise (SystemExit msg_exit), [msg_result_layer])
    | Raise e => (Raise e, [])
    | Timeout => (Timeout, [])
    end.
Proof.
  intros (uri & Hin & Hc). unfold processAlgorithm.
  destruct (index fuseau_list fuseau) as [longz|e|]; try reflexivity.
  rewrite check_paths_detects; [reflexivity|].
  exists (split_head "|" uri). split; [|exact Hc].
  apply in_map. exact Hin.
Qed.

Lemma result_layer_exit_witness :
  processAlgorithm [0; -15; -30] 0
    ["/home/user/project/Ground.shp|layername=Ground";
     "file:////home/user/project/Step_4/ComputedPoints.csv?delimiter=,&xField=x&yField=y"]%string
    (fun longz => (Ok longz, ["Creation of points grid"]%string))
  = (Raise (SystemExit msg_exit), [msg_result_layer]).
Proof.
  apply (result_layer_exit [0; -15; -30] 0).
  eexists. split; [right; left; reflexivity | reflexivity].
Defined.

(** Without such a layer the rest of the algorithm runs. *)
Example no_result_layer :
  processAlgorithm [0; -15; -30] 0
    ["/home/user/project/Ground.shp|layername=Ground"]%string
    (fun longz => (Ok longz, ["Creation of points grid"]%string))
  = (Ok 0, ["Creation of points grid"]%string).
Proof. reflexivity. Qed.

(** ** Rounding and the summary statistics *)

Lemma round_half_even_IZR (z : Z) : round_half_even (IZR z) = z.
Proof.
  unfold round_half_even. rewrite ZfloorZ.
  destruct (Rlt_dec (IZR z - IZR z) (1 / 2)) as [_|N]; [reflexivity | exfalso; lra].
Qed.

Lemma round_half_even_cases (y : R) :
  (round_half_even y = Zfloor y /\ y - IZR (Zfloor y) <= 1 / 2) \/
  (round_half_even y = (Zfloor y + 1)%Z /\ 1 / 2 <= y - IZR (Zfloor y)).
Proof.
  unfold round_half_even.
  destruct (Rlt_dec (y - IZR (Zfloor y)) (1 / 2)) as [H1|H1]; [left; split; [reflexivity | lra]|].
  destruct (Rlt_dec (1 / 2) (y - IZR (Zfloor y))) as [H2|H2]; [right; split; [reflexivity | lra]|].
  destruct (Z.even (Zfloor y)); [left | right]; split; try reflexivity; lra.
Qed.

Lemma round_half_even_err (y : R) : - (1 / 2) <= IZR (round_half_even y) - y <= 1 / 2.
Proof.
  pose proof (Zfloor_bound y) as [Hlo Hhi].
  destruct (round_half_even_cases y) as [[-> H]|[-> H]].
  - lra.
  - rewrite plus_IZR. lra.
Qed.

Lemma round_half_even_mono (y1 y2 : R) :
  y1 <= y2 -> (round_half_even y1 <= round_half_even y2)%Z.
Proof.
  intros Hle. pose proof (Zfloor_le y1 y2 Hle) as Hf.
  destruct (Z.eq_dec (Zfloor y1) (Zfloor y2)) as [E|NE].
  - unfold round_half_even. rewrite <- E.
    destruct (Rlt_dec (y1 - IZR (Zfloor y1)) (1 / 2)) as [A1|A1].
    + destruct (Rlt_dec (y2 - IZR (Zfloor y1)) (1 / 2)); [lia|].
      destruct (Rlt_dec (1 / 2) (y2 - IZR (Zfloor y1))); [lia|].
      destruct (Z.even (Zfloor y1)); lia.
    + destruct (Rlt_dec (y2 - IZR (Zfloor y1)) (1 / 2)) as [A2|A2]; [exfalso; lra|].
      destruct (Rlt_dec (1 / 2) (y1 - IZR (Zfloor y1))) as [B1|B1].
      * destruct (Rlt_dec (1 / 2) (y2 - IZR (Zfloor y1))) as [B2|B2]; [lia | exfalso; lra].
      * destruct (Rlt_dec (1 / 2) (y2 - IZR (Zfloor y1))) as [B2|B2];
          destruct (Z.even (Zfloor y1)); lia.
  - destruct (round_half_even_cases y1) as [[-> _]|[-> _]];
      destruct (round_half_even_cases y2) as [[-> _]|[-> _]]; lia.
Qed.

Lemma round2_err (x : R) : Rabs (round2 x - x) <= 0.005.
Proof.
  unfold round2. pose proof (round_half_even_err (x * 100)) as H.
  apply Rabs_le. lra.
Qed.

Lemma round2_mono (x y : R) : x <= y -> round2 x <= round2 y.
Proof.
  intros H. unfold round2.
  assert (Hz : (round_half_even (x * 100) <= round_half_even (y * 100))%Z)
    by (apply round_half_even_mono; lra).
  apply IZR_le in Hz. lra.
Qed.

Lemma round2_idem (x : R) : round2 (round2 x) = round2 x.
Proof.
  unfold round2.
  replace (IZR (round_half_even (x * 100)) / 100 * 100)
    with (IZR (round_half_even (x * 100))) by field.
  rewrite round_half_even_IZR. reflexivity.
Qed.

Lemma fold_Rmin_spec (l : list R) (x : R) :
  In (fold_left Rmin l x) (x :: l) /\
  forall v, In v (x :: l) -> fold_left Rmin l x <= v.
Proof.
  revert x. induction l as [|a l IH]; intros x; simpl.
  - split; [left; reflexivity|]. intros v [->|[]]. lra.
  - destruct (IH (Rmin x a)) as [Hin Hle]. split.
    + destruct Hin as [E|Hin]; [|right; right; exact Hin].
      rewrite <- E. destruct (Rle_dec x a).
      * left. rewrite Rmin_left by assumption. reflexivity.
      * right. left. rewrite Rmin_right by lra. reflexivity.
    + intros v [->|[->|Hv]].
      * eapply Rle_trans; [apply Hle; left; reflexivity | apply Rmin_l].
      * eapply Rle_trans; [apply Hle; left; reflexivity | apply Rmin_r].
      * apply Hle. right. exact Hv.
Qed.

Lemma fold_Rmax_spec (l : list R) (x : R) :
  In (fold_left Rmax l x) (x :: l) /\
  forall v, In v (x :: l) -> v <= fold_left Rmax l x.
Proof.
  revert x. induction l as [|a l IH]; intros x; simpl.
  - split; [left; reflexivity|]. intros v [->|[]]. lra.
  - destruct (IH (Rmax x a)) as [Hin Hle]. split.
    + destruct Hin as [E|Hin]; [|right; right; exact Hin].
      rewrite <- E. destruct (Rle_dec x a).
      * right. left. rewrite Rmax_right by assumption. reflexivity.
      * left. rewrite Rmax_left by lra. reflexivity.
    + intros v [->|[->|Hv]].
      * eapply Rle_trans; [apply Rmax_l | apply Hle; left; reflexivity].
      * eapply Rle_trans; [apply Rmax_r | apply Hle; left; reflexivity].
      * apply Hle. right. exact Hv.
Qed.

Lemma fold_Rplus_bounds (lo hi : R) (l : list R) (a : R) :
  (forall v, In v l -> lo <= v <= hi) ->
  lo * INR (List.length l) + a <= fold_left Rplus l a <= hi * INR (List.length l) + a.
Proof.
  revert a. induction l as [|x l IH]; intros a H.
  - simpl. lra.
  - cbn [fold_left]. change (List.length (x :: l)) with (S (List.length l)).
    rewrite S_INR.
    assert (Hx : lo <= x <= hi) by (apply H; left; reflexivity).
    specialize (IH (a + x) (fun v Hv => H v (or_intror Hv))). lra.
Qed.

(** The three statistics of a non-empty list. *)
Lemma statistics_spec (t : list R) :
  t <> [] ->
  exists lo avg hi,
    py_min t = Ok lo /\ statistics_mean t = Ok avg /\ py_max t = Ok hi /\
    avg = sum t / INR (List.length t) /\
    In lo t /\ In hi t /\ (forall v, In v t -> lo <= v <= hi) /\ lo <= avg <= hi.
Proof.
  destruct t as [|x l]; [congruence|]. intros _.
  destruct (fold_Rmin_spec l x) as [Hmin_in Hmin].
  destruct (fold_Rmax_spec l x) as [Hmax_in Hmax].
  exists (fold_left Rmin l x), (sum (x :: l) / INR (List.length (x :: l))),
    (fold_left Rmax l x).
  repeat split; auto.
  - pose proof (fold_Rplus_bounds (fold_left Rmin l x) (fold_left Rmax l x) (x :: l) 0
                  (fun v Hv => conj (Hmin v Hv) (Hmax v Hv))) as [Hb _].
    assert (Hpos : 0 < INR (List.length (x :: l))) by (apply lt_0_INR; simpl; lia).
    unfold sum. apply Rmult_le_reg_r with (INR (List.length (x :: l))); [exact Hpos|].
    unfold Rdiv. rewrite Rmult_assoc, Rinv_l by lra. lra.
  - pose proof (fold_Rplus_bounds (fold_left Rmin l x) (fold_left Rmax l x) (x :: l) 0
                  (fun v Hv => conj (Hmin v Hv) (Hmax v Hv))) as [_ Hb].
    assert (Hpos : 0 < INR (List.length (x :: l))) by (apply lt_0_INR; simpl; lia).
    unfold sum. apply Rmult_le_reg_r with (INR (List.length (x :: l))); [exact Hpos|].
    unfold Rdiv. rewrite Rmult_assoc, Rinv_l by lra. lra.
Qed.

Lemma compute_temp_total (root : R -> R -> R -> R -> R) (id : Z) (FixedTemp : R)
    (Shadow : list R) (B C : R) (Gh : list R) (alb em : R) (Tsky Tair : list R)
    (lambd ep Cv : R) (ET0 Tint : list R) (kc : R) :
  (24 <= List.length Shadow)%nat -> (24 <= List.length Gh)%nat ->
  (24 <= List.length Tsky)%nat -> (24 <= List.length Tair)%nat ->
  (24 <= List.length ET0)%nat -> (24 <= List.length Tint)%nat ->
  exists t log,
    compute_temp root id FixedTemp Shadow B C Gh alb em Tsky Tair lambd ep Cv ET0 Tint kc
    = Ok (t, log) /\
    List.length t = 24%nat /\
    ((FixedTemp = 0 \/ round2 FixedTemp = FixedTemp) -> forall v, In v t -> round2 v = v).
Proof.
  intros H1 H2 H3 H4 H5 H6.
  destruct (Req_dec_T FixedTemp 0) as [E0|N0].
  - destruct (loop_returns root id FixedTemp Shadow B C Gh alb em Tsky Tair
                lambd ep Cv ET0 Tint kc E0 H1 H2 H3 H4 H5 H6)
      as (t & n & log & E & _ & _ & L).
    exists (map (fun T => round2 (T - 273.15)) t), log.
    split; [exact E|]. split; [rewrite length_map; exact L|].
    intros _ v Hv. apply in_map_iff in Hv. destruct Hv as (T & <- & _).
    apply round2_idem.
  - exists (repeat FixedTemp 24), []. split; [apply compute_temp_fixed; exact N0|].
    split; [reflexivity|].
    intros [E|E] v Hv; [contradiction|].
    apply repeat_spec in Hv. subst v. exact E.
Qed.

(** C8, as amended.  For every class the reported mean is the rounding to
    two decimals of the arithmetic average of the 24 values returned, so
    within 0.005 of it, and the minimum and maximum are taken over those
    values.  When the values are two-decimal values, which is the case
    with [FixedTemp = 0] and with a two-decimal [FixedTemp], the reported
    mean lies between the minimum and the maximum. *)
Theorem summary_statistics (root : R -> R -> R -> R -> R) (id : Z) (FixedTemp : R)
    (Shadow : list R) (B C : R) (Gh : list R) (alb em : R) (Tsky Tair : list R)
    (lambd ep Cv : R) (ET0 Tint : list R) (kc : R) :
  (24 <= List.length Shadow)%nat -> (24 <= List.length Gh)%nat ->
  (24 <= List.length Tsky)%nat -> (24 <= List.length Tair)%nat ->
  (24 <= List.length ET0)%nat -> (24 <= List.length Tint)%nat ->
  exists t log lo avg hi,
    compute_temp root id FixedTemp Shadow B C Gh alb em Tsky Tair lambd ep Cv ET0 Tint kc
    = Ok (t, log) /\
    py_min t = Ok lo /\ statistics_mean t = Ok avg /\ py_max t = Ok hi /\
    avg = sum t / 24 /\
    In lo t /\ In hi t /\ (forall v, In v t -> lo <= v <= hi) /\
    Rabs (round2 avg - avg) <= 0.005 /\
    ((FixedTemp = 0 \/ round2 FixedTemp = FixedTemp) ->
     (forall v, In v t -> round2 v = v) /\ lo <= round2 avg <= hi).
Proof.
  intros H1 H2 H3 H4 H5 H6.
  destruct (compute_temp_total root id FixedTemp Shadow B C Gh alb em Tsky Tair
              lambd ep Cv ET0 Tint kc H1 H2 H3 H4 H5 H6) as (t & log & E & L & Hr).
  destruct (statistics_spec t) as (lo & avg & hi & Emin & Eavg & Emax & Ea & Ilo & Ihi & Hb & Hm).
  { intros ->. discriminate L. }
  exists t, log, lo, avg, hi. repeat split; try assumption.
  - rewrite Ea, L. simpl INR. f_equal. lra.
  - apply Hb. assumption.
  - apply Hb. assumption.
  - apply round2_err.
  - apply Hr; assumption.
  - rewrite <- (Hr H lo Ilo). apply round2_mono. lra.
  - rewrite <- (Hr H hi Ihi). apply round2_mono. lra.
Qed.

Lemma summary_statistics_witness :
  exists t log lo avg hi,
    compute_temp root_choice 7 0 (hours 1) (row_B 1 0.1 2000000) (row_C 0.9)
      (hours 500) 0.3 0.9 (hours 280) (hours 290) 1 0.1 2000000 (hours 0) (hours 285) 0.9
    = Ok (t, log) /\
    py_min t = Ok lo /\ statistics_mean t = Ok avg /\ py_max t = Ok hi /\
    lo <= round2 avg <= hi.
Proof.
  destruct (summary_statistics root_choice 7 0 (hours 1) (row_B 1 0.1 2000000) (row_C 0.9)
              (hours 500) 0.3 0.9 (hours 280) (hours 290) 1 0.1 2000000
              (hours 0) (hours 285) 0.9)
    as (t & log & lo & avg & hi & E & E1 & E2 & E3 & _ & _ & _ & _ & _ & Hm);
    try (simpl; lia).
  exists t, log, lo, avg, hi. repeat split; try assumption.
  - apply Hm. left. reflexivity.
  - apply Hm. left. reflexivity.
Defined.

Lemma round2_20_004 : round2 20.004 = 20.
Proof.
  unfold round2, round_half_even.
  assert (E : Zfloor (20.004 * 100) = 2000%Z) by (apply Zfloor_eq; lra).
  rewrite E.
  destruct (Rlt_dec (20.004 * 100 - 2000) (1 / 2)) as [_|N]; [lra | exfalso; lra].
Qed.

(** C8 as stated fails for a class with a fixed temperature that is not a
    two-decimal value: with [FixedTemp = 20.004] the 24 values are
    [20.004], so is their minimum, and the reported mean is [20]. *)
Lemma summary_statistics_counterexample :
  exists t lo avg,
    compute_temp (fun x0 _ _ _ => x0) 7 20.004 (hours 1) (row_B 1 0.1 2000000) (row_C 0.9)
      (hours 500) 0.3 0.9 (hours 280) (hours 290) 1 0.1 2000000 (hours 0) (hours 285) 0.9
    = Ok (t, []) /\
    py_min t = Ok lo /\ statistics_mean t = Ok avg /\
    ~ (lo <= round2 avg).
Proof.
  exists (repeat 20.004 24).
  destruct (statistics_spec (repeat 20.004 24))
    as (lo & avg & hi & E1 & E2 & _ & _ & Ilo & Ihi & _ & Hm); [discriminate|].
  apply repeat_spec in Ilo. apply repeat_spec in Ihi. subst lo hi.
  exists 20.004, avg. split; [apply compute_temp_fixed; lra|].
  split; [exact E1|]. split; [exact E2|].
  replace avg with 20.004 by lra. rewrite round2_20_004. lra.
Qed.

(** ** The weather file *)


Lemma scan_header_bound (rows : list (list string)) (i : nat) (last : option nat) (j : nat) :
  (forall k, last = Some k -> (k < i)%nat) ->
  scan_header rows i last = Ok j -> (j < i + List.length rows)%nat.
Proof.
  revert i last. induction rows as [|row rows IH]; intros i last Hl H; simpl in H.
  - destruct last as [k|]; [|discriminate]. inversion H; subst.
    specialize (Hl j eq_refl). simpl. lia.
  - destruct (index row 0) as [f| |]; simpl in H; try discriminate.
    destruct (isdigit f).
    + inversion H; subst. simpl. lia.
    + apply IH in H; [simpl; lia|]. intros k Hk. inversion Hk. lia.
Qed.

Lemma first_row_bound (rows : list (list string)) (i : nat) :
  first_row rows = Ok i -> (i < List.length rows)%nat.
Proof.
  intros H. apply (scan_header_bound rows 0 None i) in H; [lia | discriminate].
Qed.

Lemma Tyear_length (W : list weather_row) : List.length (Tyear W) = 24%nat.
Proof. unfold Tyear. rewrite length_map, length_seq. reflexivity. Qed.

Lemma deltaT_total (W : list weather_row) :
  W <> [] -> exists dT, deltaT W = Ok dT /\ List.length dT = 24%nat.
Proof.
  intros HW. unfold deltaT.
  destruct (mapM_total
              (fun i => hi <- py_max (map DryBulbK W) ;;
                        lo <- py_min (map DryBulbK W) ;; Ok (Rmax (hi - i) (i - lo)))
              (Tyear W)) as [dT E].
  - intros i _. destruct W as [|w W']; [congruence|]. simpl. eauto.
  - exists dT. split; [exact E|].
    rewrite (mapM_length _ _ _ E). apply Tyear_length.
Qed.

Lemma mapM_Raise {A B : Type} (f : A -> result B) (l1 l2 : list A) (a : A) (e : exn) :
  (forall x, In x l1 -> exists b, f x = Ok b) -> f a = Raise e ->
  mapM f (l1 ++ a :: l2) = Raise e.
Proof.
  intros H Ha. induction l1 as [|x l1 IH]; simpl.
  - rewrite Ha. reflexivity.
  - destruct (H x (or_introl eq_refl)) as [b Eb]. rewrite Eb. simpl.
    rewrite IH by (intros y Hy; apply H; right; exact Hy). reflexivity.
Qed.


(** ** Grouping by key *)

Lemma insert_sorted_perm {A : Type} (le : A -> A -> bool) (a : A) (l : list A) :
  Permutation (insert_sorted le a l) (a :: l).
Proof.
  induction l as [|b l IH]; simpl; [reflexivity|].
  destruct (le a b); [reflexivity|].
  rewrite IH. apply perm_swap.
Qed.

Lemma isort_perm {A : Type} (le : A -> A -> bool) (l : list A) :
  Permutation (isort le l) l.
Proof.
  induction l as [|a l IH]; simpl; [reflexivity|].
  rewrite insert_sorted_perm. constructor. exact IH.
Qed.

Lemma filter_unique {A : Type} (f : A -> string) (l : list A) (k : string) :
  NoDup (map f l) -> In k (map f l) ->
  exists r, filter (fun x => (f x =? k)%string) l = [r] /\ f r = k /\ In r l.
Proof.
  induction l as [|a l IH]; intros Hnd Hin; [contradiction|].
  simpl in Hnd. inversion Hnd as [|? ? Hna Hnd']; subst.
  simpl. destruct (String.eqb_spec (f a) k) as [E|NE].
  - exists a. split; [|split; [exact E | left; reflexivity]].
    f_equal. rewrite <- E in *.
    clear -Hna. induction l as [|b l IH]; simpl; [reflexivity|].
    destruct (String.eqb_spec (f b) (f a)) as [E'|_].
    + exfalso. apply Hna. left. exact E'.
    + apply IH. intros H. apply Hna. right. exact H.
  - destruct Hin as [E|Hin]; [contradiction|].
    destruct (IH Hnd' Hin) as (r & Er & Hr & Hinr).
    exists r. split; [exact Er|]. split; [exact Hr | right; exact Hinr].
Qed.

Section PipelineFacts.

Variable root : R -> R -> R -> R -> R.
Variable str_tuple : list R -> string.
Variable parse_row : list string -> weather_row.

Local Abbreviation key' := (key str_tuple).
Local Abbreviation keys_of' := (keys_of str_tuple).
Local Abbreviation simplified' := (simplified str_tuple).

Lemma keys_of_In (pts : list point) (k : string) :
  In k (keys_of' pts) <-> In k (map key' pts).
Proof.
  unfold keys_of. split; intros H.
  - apply (Permutation_in _ (isort_perm _ _)) in H. apply nodup_In in H. exact H.
  - apply (Permutation_in _ (Permutation_sym (isort_perm _ _))).
    apply nodup_In. exact H.
Qed.

Lemma keys_of_NoDup (pts : list point) : NoDup (keys_of' pts).
Proof.
  unfold keys_of.
  apply (Permutation_NoDup (Permutation_sym (isort_perm _ _))).
  apply NoDup_nodup.
Qed.

Lemma group_heads (pts : list point) (ks : list string) :
  (forall k, In k ks -> In k (map key' pts)) ->
  let sim := flat_map
               (fun k => match filter (fun p => (key' p =? k)%string) pts with
                         | [] => []
                         | p :: _ => [p]
                         end) ks in
  map key' sim = ks /\ forall r, In r sim -> In r pts.
Proof.
  induction ks as [|k ks IH]; intros H; simpl; [split; [reflexivity | contradiction]|].
  destruct IH as [IHk IHin]; [intros k' Hk'; apply H; right; exact Hk'|].
  assert (Hk : In k (map key' pts)) by (apply H; left; reflexivity).
  apply in_map_iff in Hk. destruct Hk as (p & Ep & Hp).
  destruct (filter (fun p0 => (key' p0 =? k)%string) pts) as [|q g] eqn:Ef.
  - exfalso. assert (Hin : In p (filter (fun p0 => (key' p0 =? k)%string) pts)).
    { apply filter_In. split; [exact Hp|]. apply String.eqb_eq. exact Ep. }
    rewrite Ef in Hin. contradiction.
  - assert (Hq : In q (filter (fun p0 => (key' p0 =? k)%string) pts))
      by (rewrite Ef; left; reflexivity).
    apply filter_In in Hq. destruct Hq as [Hq Eq]. apply String.eqb_eq in Eq.
    simpl. split.
    + f_equal; [exact Eq | exact IHk].
    + intros r [<-|Hr]; [exact Hq | apply IHin; exact Hr].
Qed.

(** [simplified] has one row per distinct key: a point of [pts_matrix]
    with that key. *)
Lemma simplified_keys (pts : list point) :
  map key' (simplified' pts) = keys_of' pts /\
  forall r, In r (simplified' pts) -> In r pts.
Proof.
  unfold simplified. apply group_heads. intros k Hk. apply keys_of_In. exact Hk.
Qed.

End PipelineFacts.

(** ** The whole computation *)

Lemma Forall2_Forall_r {A B : Type} (P : A -> B -> Prop) (Q : B -> Prop)
    (l : list A) (bs : list B) :
  Forall2 P l bs -> (forall a b, In a l -> P a b -> Q b) -> Forall Q bs.
Proof.
  induction 1 as [|a b l bs Hab _ IH]; intros H; constructor.
  - apply (H a b); [left; reflexivity | exact Hab].
  - apply IH. intros a' b' Ha'. apply H. right. exact Ha'.
Qed.

Lemma Evapo_total (t : Z) (alt l : R) (Tair Gh Ha : list R) (lat alb : R) :
  (24 <= List.length Tair)%nat -> (24 <= List.length Gh)%nat ->
  (24 <= List.length Ha)%nat ->
  exists ETO, Evapo t alt l Tair Gh Ha lat alb = Ok ETO.
Proof.
  intros H1 H2 H3. unfold Evapo. apply mapM_total.
  intros i Hi. apply in_seq in Hi. apply Evapo_hour_total; lia.
Qed.

Lemma Evapo_length (t : Z) (alt l : R) (Tair Gh Ha : list R) (lat alb : R) (ETO : list R) :
  Evapo t alt l Tair Gh Ha lat alb = Ok ETO -> List.length ETO = 24%nat.
Proof. intros H. unfold Evapo in H. rewrite (mapM_length _ _ _ H). apply length_seq. Qed.

Lemma Tint_length (t : Z) (Ty dT : list R) (Dh : R) (Ti : list R) :
  Tint t Ty dT Dh = Ok Ti -> List.length Ti = 24%nat.
Proof. intros H. unfold Tint in H. rewrite (mapM_length _ _ _ H). apply length_seq. Qed.

Lemma read_csv_nonempty (parse_row : list string -> weather_row)
    (rows : list (list string)) (i : nat) :
  first_row rows = Ok i -> read_csv parse_row rows i <> [].
Proof.
  intros H Hnil. apply first_row_bound in H.
  assert (L : List.length (read_csv parse_row rows i) = 0%nat) by (rewrite Hnil; reflexivity).
  unfold read_csv in L. rewrite length_map, length_skipn in L. lia.
Qed.

Section Broadcast.

Variable root : R -> R -> R -> R -> R.
Variable str_tuple : list R -> string.
Variable parse_row : list string -> weather_row.

Local Abbreviation key' := (key str_tuple).
Local Abbreviation simplified' := (simplified str_tuple).


Lemma merge_cons (p : point) (pts : list point) (sim : list solved) :
  merge str_tuple (p :: pts) sim = merge str_tuple [p] sim ++ merge str_tuple pts sim.
Proof. unfold merge. cbn [flat_map]. rewrite app_nil_r. reflexivity. Qed.

(** The left merge gives each point the result of the one row of
    [simplified] that has its key. *)
Lemma merge_lookup (pts : list point) (sim : list solved) :
  NoDup (map sv_key sim) ->
  (forall p, In p pts -> In (key' p) (map sv_key sim)) ->
  merge str_tuple pts sim
  = map (fun p => {| o_id := pt_id (pt p); o_x := pt_x (pt p); o_y := pt_y (pt p);
                     o_result := Some (class_result sim (key' p)) |}) pts.
Proof.
  intros Hnd. induction pts as [|p pts IH]; intros H; [reflexivity|].
  rewrite merge_cons, IH by (intros q Hq; apply H; right; exact Hq).
  destruct (filter_unique sv_key sim (key' p) Hnd (H p (or_introl eq_refl)))
    as (r & Er & _ & _).
  unfold merge, class_result. cbn [flat_map map app]. cbv beta zeta. rewrite Er.
  cbn [map app]. reflexivity.
Qed.


End Broadcast.



(** ** The weather file in the whole computation *)







(** ** Shadow tables *)

Lemma last_raster_None (files : list raster_file) (h : Z) (found : option (attrs -> R)) :
  ~ In h (map fst files) -> last_raster files h found = found.
Proof.
  revert found. induction files as [|[h' r] files IH]; intros found H; [reflexivity|].
  simpl in *. destruct (Z.eqb_spec h' h) as [E|NE].
  - exfalso. apply H. left. exact E.
  - apply IH. intros Hin. apply H. right. exact Hin.
Qed.

Lemma last_raster_Some (files : list raster_file) (h : Z) (found : option (attrs -> R)) :
  In h (map fst files) -> exists r, last_raster files h found = Some r.
Proof.
  revert found. induction files as [|[h' r] files IH]; intros found H; [contradiction|].
  simpl in *. destruct (in_dec Z.eq_dec h (map fst files)) as [Hin|Hnin].
  - apply IH. exact Hin.
  - destruct H as [E|Hin]; [|contradiction].
    rewrite last_raster_None by exact Hnin.
    rewrite E, Z.eqb_refl. eauto.
Qed.

Lemma last_raster_found (files : list raster_file) (h : Z) (a b : option (attrs -> R)) :
  In h (map fst files) -> last_raster files h a = last_raster files h b.
Proof.
  revert a b. induction files as [|[h' r] files IH]; intros a b H; [contradiction|].
  simpl in *. destruct (in_dec Z.eq_dec h (map fst files)) as [Hin|Hnin].
  - apply IH. exact Hin.
  - destruct H as [E|Hin]; [|contradiction].
    rewrite E, Z.eqb_refl. reflexivity.
Qed.

(** After the scan: the hours met, the last file written, and the table of
    each hour. *)
Lemma scan_rasters_spec (layer : list attrs) (files : list raster_file)
    (Shadow_h : list Z) (last_saved : option Z) (dir : tempdir) :
  exists last dir',
    scan_rasters layer files Shadow_h last_saved dir
    = (Shadow_h ++ map fst files, last, dir') /\
    (files = [] -> last = last_saved) /\
    (files <> [] -> exists h r, last = Some h /\ dir' h = Some (rastersampling layer r)) /\
    forall h, dir' h = match last_raster files h None with
                       | Some r => Some (rastersampling layer r)
                       | None => dir h
                       end.
Proof.
  revert Shadow_h last_saved dir.
  induction files as [|[h r] files IH]; intros Shadow_h last_saved dir.
  - exists last_saved, dir. simpl. rewrite app_nil_r. repeat split; congruence.
  - destruct (IH (Shadow_h ++ [h]) (Some h) (to_csv dir h (rastersampling layer r)))
      as (last & dir' & E & Hnil & Hcons & Hdir).
    exists last, dir'. cbn [scan_rasters]. rewrite E.
    split; [rewrite <- app_assoc; reflexivity|].
    split; [discriminate|]. split.
    + intros _. destruct files as [|f files'].
      * rewrite (Hnil eq_refl). exists h, r. split; [reflexivity|].
        rewrite Hdir. simpl. unfold to_csv. rewrite Z.eqb_refl. reflexivity.
      * apply Hcons. discriminate.
    + intros k. rewrite Hdir. cbn [last_raster].
      destruct (in_dec Z.eq_dec k (map fst files)) as [Hin|Hnin].
      * destruct (last_raster_Some files k None Hin) as [r1 E1].
        destruct (last_raster_Some files k (if (h =? k)%Z then Some r else None) Hin)
          as [r2 E2].
        assert (Eq : last_raster files k None
                     = last_raster files k (if (h =? k)%Z then Some r else None))
          by (apply last_raster_found; exact Hin).
        rewrite <- Eq, E1. reflexivity.
      * rewrite !last_raster_None by exact Hnin.
        unfold to_csv. rewrite (Z.eqb_sym k h). destruct (h =? k)%Z; reflexivity.
Qed.

Lemma write_night_spec (hs : list nat) (Shadow_h : list Z) (other_hours : list sample)
    (dir : tempdir) (k : Z) :
  write_night hs Shadow_h other_hours dir k
  = if in_dec Z.eq_dec k (map (fun h => Z.of_nat (h + 1)) hs)
    then if in_dec Z.eq_dec k Shadow_h then dir k else Some other_hours
    else dir k.
Proof.
  revert dir. induction hs as [|h hs IH]; intros dir; [reflexivity|].
  cbn [write_night map].
  destruct (existsb (Z.eqb (Z.of_nat (h + 1))) Shadow_h) eqn:Ex.
  - rewrite IH.
    assert (Hin : In (Z.of_nat (h + 1)) Shadow_h).
    { apply existsb_exists in Ex. destruct Ex as (x & Hx & E).
      apply Z.eqb_eq in E. rewrite E. exact Hx. }
    destruct (in_dec Z.eq_dec k (map (fun h0 => Z.of_nat (h0 + 1)) hs)) as [H1|H1];
      destruct (in_dec Z.eq_dec k (Z.of_nat (h + 1) :: map (fun h0 => Z.of_nat (h0 + 1)) hs))
        as [H2|H2]; try reflexivity.
    + exfalso. apply H2. right. exact H1.
    + destruct H2 as [E|H2]; [|contradiction].
      destruct (in_dec Z.eq_dec k Shadow_h) as [_|N]; [reflexivity|].
      exfalso. apply N. rewrite <- E. exact Hin.
  - rewrite IH.
    assert (Hnin : ~ In (Z.of_nat (h + 1)) Shadow_h).
    { intros Hin. assert (existsb (Z.eqb (Z.of_nat (h + 1))) Shadow_h = true).
      { apply existsb_exists. exists (Z.of_nat (h + 1)). split; [exact Hin | apply Z.eqb_refl]. }
      congruence. }
    unfold to_csv.
    destruct (in_dec Z.eq_dec k (map (fun h0 => Z.of_nat (h0 + 1)) hs)) as [H1|H1];
      destruct (in_dec Z.eq_dec k (Z.of_nat (h + 1) :: map (fun h0 => Z.of_nat (h0 + 1)) hs))
        as [H2|H2].
    + destruct (in_dec Z.eq_dec k Shadow_h) as [Hk|Hk]; [|reflexivity].
      destruct (Z.eqb_spec k (Z.of_nat (h + 1))) as [E|_]; [|reflexivity].
      exfalso. apply Hnin. rewrite <- E. exact Hk.
    + exfalso. apply H2. right. exact H1.
    + destruct H2 as [E|H2]; [|contradiction].
      destruct (in_dec Z.eq_dec k Shadow_h) as [Hk|Hk].
      * exfalso. apply Hnin. rewrite E. exact Hk.
      * rewrite <- E, Z.eqb_refl. reflexivity.
    + destruct (Z.eqb_spec k (Z.of_nat (h + 1))) as [E|_]; [|reflexivity].
      exfalso. apply H2. left. symmetry. exact E.
Qed.

Lemma group_csv_spec (hs : list nat) (dir : tempdir) (table : Z -> list sample) :
  (forall h, In h hs -> dir (Z.of_nat (h + 1)) = Some (table (Z.of_nat (h + 1)))) ->
  group_csv hs dir
  = Ok (flat_map (fun h => map (fun r => {| r_pt := s_pt r; r_Shadow1 := s_Shadow1 r;
                                            r_hour := h |}) (table h))
                 (map (fun h => Z.of_nat (h + 1)) hs)).
Proof.
  induction hs as [|h hs IH]; intros H; [reflexivity|].
  cbn [group_csv map flat_map]. unfold read_csv_temp.
  rewrite (H h (or_introl eq_refl)). cbn [bind].
  rewrite IH by (intros h' Hh'; apply H; right; exact Hh'). reflexivity.
Qed.

(** [Pts_list]: for each hour from 1 to 24 and each feature, the value of
    the last raster of that hour, and 0 when the hour has no raster. *)
Lemma shadow_table_spec (layer : list attrs) (files : list raster_file) (dir0 : tempdir) :
  files <> [] ->
  shadow_table layer files dir0
  = Ok (flat_map (fun h => map (fun p => {| r_pt := p; r_Shadow1 := shadow_at files h p;
                                            r_hour := h |}) layer)
                 day_hours).
Proof.
  intros Hne. unfold shadow_table.
  destruct (scan_rasters_spec layer files [] None dir0)
    as (last & dir & E & _ & Hlast & Hdir).
  rewrite E. destruct (Hlast Hne) as (hl & rl & -> & Ehl).
  cbn [bind]. unfold read_csv_temp at 1. rewrite Ehl. cbn [bind].
  rewrite (group_csv_spec (seq 0 24) _
             (fun h => map (fun p => {| s_pt := p; s_Shadow1 := shadow_at files h p |}) layer)).
  - unfold day_hours. f_equal. apply flat_map_ext. intros h.
    rewrite map_map. reflexivity.
  - intros h Hh. rewrite write_night_spec.
    destruct (in_dec Z.eq_dec (Z.of_nat (h + 1)) (map (fun h0 => Z.of_nat (h0 + 1)) (seq 0 24)))
      as [_|N];
      [|exfalso; apply N; exact (in_map (fun h0 => Z.of_nat (h0 + 1)) _ _ Hh)].
    unfold shadow_at. cbn [app].
    destruct (in_dec Z.eq_dec (Z.of_nat (h + 1)) (map fst files)) as [Hin|Hnin].
    + rewrite Hdir. destruct (last_raster_Some files (Z.of_nat (h + 1)) None Hin) as [r Er].
      rewrite Er. reflexivity.
    + rewrite (last_raster_None files _ None Hnin).
      unfold set_shadow_0, rastersampling. rewrite map_map. reflexivity.
Qed.

(** ** From [Pts_list] to [pts_matrix] *)


Lemma isort_sorted {A : Type} (le : A -> A -> bool) (l : list A) :
  Sorted (fun a b => le a b = true) l -> isort le l = l.
Proof.
  induction 1 as [|a l Hs IH Hd]; [reflexivity|].
  simpl. rewrite IH. destruct Hd as [|b l' Hab]; [reflexivity|].
  simpl. rewrite Hab. reflexivity.
Qed.

Lemma Sorted_app {A : Type} (R0 : A -> A -> Prop) (l1 l2 : list A) :
  Sorted R0 l1 -> Sorted R0 l2 ->
  (forall a b, In a l1 -> In b l2 -> R0 a b) ->
  Sorted R0 (l1 ++ l2).
Proof.
  intros H1 H2 H. induction H1 as [|a l1 Hs IH Hd]; [exact H2|].
  simpl. constructor.
  - apply IH. intros x y Hx Hy. apply H; [right; exact Hx | exact Hy].
  - destruct Hd as [|b l1' Hab]; simpl.
    + destruct l2 as [|b l2]; constructor. apply H; left; reflexivity.
    + constructor. exact Hab.
Qed.

Section PointsMatrix.

Variable layer : list attrs.
Variable sh : Z -> attrs -> R.

Hypothesis ids_NoDup : NoDup (map pt_id layer).

Local Abbreviation row_at h := (fun p => {| r_pt := p; r_Shadow1 := sh h p; r_hour := h |}).
Local Abbreviation table hs := (flat_map (fun h => map (row_at h) layer) hs).

Lemma table_hours (hs : list Z) (r : pts_row) : In r (table hs) -> In (r_hour r) hs.
Proof.
  intros H. apply in_flat_map in H. destruct H as (h & Hh & Hr).
  apply in_map_iff in Hr. destruct Hr as (p & <- & _). exact Hh.
Qed.

Lemma table_sorted (hs : list Z) :
  StronglySorted Z.le hs ->
  Sorted (fun a b => (r_hour a <=? r_hour b)%Z = true) (table hs).
Proof.
  induction 1 as [|h hs Hs IH Hall]; [constructor|].
  cbn [flat_map]. apply Sorted_app.
  - clear. induction layer as [|p l IH]; [constructor|].
    simpl. constructor; [exact IH|].
    destruct l; constructor. simpl. apply Z.leb_refl.
  - exact IH.
  - intros a b Ha Hb. apply in_map_iff in Ha. destruct Ha as (p & <- & _).
    apply table_hours in Hb. rewrite Forall_forall in Hall.
    simpl. apply Z.leb_le. apply Hall. exact Hb.
Qed.

Lemma filter_layer (h : Z) (p : attrs) :
  In p layer ->
  filter (fun r => (pt_id (r_pt r) =? pt_id p)%Z) (map (row_at h) layer) = [row_at h p].
Proof.
  revert ids_NoDup. generalize layer. clear.
  induction layer as [|q l IH]; intros Hnd Hin; [contradiction|].
  inversion Hnd as [|? ? Hnq Hnd']; subst. simpl.
  destruct (Z.eqb_spec (pt_id q) (pt_id p)) as [E|NE].
  - assert (q = p).
    { destruct Hin as [Hq|Hin]; [exact Hq|].
      exfalso. apply Hnq. rewrite E. apply in_map. exact Hin. }
    subst q. f_equal.
    clear -Hnq. induction l as [|q l IH]; [reflexivity|]. simpl.
    destruct (Z.eqb_spec (pt_id q) (pt_id p)) as [E|_].
    + exfalso. apply Hnq. left. exact E.
    + apply IH. intros H. apply Hnq. right. exact H.
  - destruct Hin as [Hq|Hin]; [congruence|]. apply IH; assumption.
Qed.

Lemma filter_table (hs : list Z) (p : attrs) :
  In p layer ->
  filter (fun r => (pt_id (r_pt r) =? pt_id p)%Z) (table hs)
  = map (fun h => row_at h p) hs.
Proof.
  intros Hp. induction hs as [|h hs IH]; [reflexivity|].
  cbn [flat_map map]. rewrite filter_app, IH, filter_layer by exact Hp. reflexivity.
Qed.

(** Each feature has its row in [pts_matrix], with its values in the
    order of the hours. *)
Lemma pts_matrix_row (h1 : Z) (hs : list Z) (p : attrs) :
  StronglySorted Z.le (h1 :: hs) -> In p layer ->
  In {| pt := p; Shadow1 := map (fun h => sh h p) (h1 :: hs) |}
     (pts_matrix (table (h1 :: hs))).
Proof.
  intros Hs Hp. unfold pts_matrix. cbv zeta. apply in_flat_map.
  exists (pt_id p). split.
  - unfold ids_of. apply (Permutation_in _ (Permutation_sym (isort_perm _ _))).
    apply nodup_In. apply in_map_iff. exists (row_at h1 p). split; [reflexivity|].
    cbn [flat_map]. apply in_or_app. left. exact (in_map (row_at h1) _ _ Hp).
  - unfold sort_by_hour. rewrite (isort_sorted _ _ (table_sorted _ Hs)).
    rewrite filter_table by exact Hp. cbn [map]. left.
    f_equal. f_equal. rewrite map_map. reflexivity.
Qed.

End PointsMatrix.

Lemma day_hours_sorted : StronglySorted Z.le day_hours.
Proof.
  unfold day_hours. cbn [seq map Nat.add Z.of_nat Pos.of_succ_nat Pos.succ].
  repeat (constructor; [|repeat (constructor; [lia|]); constructor]). constructor.
Qed.

(** C9.  When [Step_3] holds at least one shadow raster and the features
    have distinct ids, every row of [Pts_list] for an hour from 1 to 24
    without raster has the value 0, whatever the rasters hold; in
    [pts_matrix] each feature has 24 values, the one of such an hour being
    0; so the solver computes the coefficient [A] of that hour with a
    sunlit fraction of 0 and starts its search half a degree below the
    temperature of the hour before. *)
Theorem night_hours_shadow_zero (layer : list attrs) (files : list raster_file)
    (dir0 : tempdir) :
  files <> [] -> NoDup (map pt_id layer) ->
  exists Pts_list,
    shadow_table layer files dir0 = Ok Pts_list /\
    (forall r, In r Pts_list -> ~ In (r_hour r) (map fst files) -> r_Shadow1 r = 0) /\
    forall p, In p layer ->
      exists row,
        In row (pts_matrix Pts_list) /\ pt row = p /\
        List.length (Shadow1 row) = 24%nat /\
        forall h, (h < 24)%nat -> ~ In (Z.of_nat (h + 1)) (map fst files) ->
          index (Shadow1 row) h = Ok 0 /\
          forall (Gh : list R) (alb em : R) (Tsky Tair : list R) (lambd ep Cv : R)
                 (ET0 Tint : list R) (kc T0 : R) (hist : list R),
            A_hour (Shadow1 row) Gh alb em Tsky Tair lambd ep Cv ET0 Tint kc T0 hist h
            = compute_A 0 (nth h Gh 0) alb em (nth h Tsky 0) (nth h Tair 0)
                        lambd ep Cv (nth h ET0 0) kc (nth h Tint 0) (T_prev T0 hist h) /\
            guess (Shadow1 row) T0 hist h = T_prev T0 hist h - 0.5.
Proof.
  intros Hne Hnd. eexists. split; [apply shadow_table_spec; exact Hne|].
  split.
  - intros r Hr Hnight. apply in_flat_map in Hr. destruct Hr as (h & _ & Hr).
    apply in_map_iff in Hr. destruct Hr as (p & <- & _). simpl in *.
    unfold shadow_at. rewrite last_raster_None by exact Hnight. reflexivity.
  - intros p Hp.
    exists {| pt := p; Shadow1 := map (fun h => shadow_at files h p) day_hours |}.
    split; [|split; [reflexivity|split]].
    + pose proof day_hours_sorted as Hs.
      unfold day_hours in *. cbn [seq map] in *.
      apply (pts_matrix_row layer (shadow_at files) Hnd _ _ p Hs Hp).
    + cbn [Shadow1]. unfold day_hours. rewrite !length_map, length_seq. reflexivity.
    + intros h Hh Hnight. cbn [Shadow1]. unfold day_hours. rewrite map_map.
      assert (E0 : nth h (map (fun x => shadow_at files (Z.of_nat (x + 1)) p) (seq 0 24)) 0 = 0).
      { rewrite nth_map_seq by exact Hh.
        unfold shadow_at. rewrite last_raster_None by exact Hnight. reflexivity. }
      split.
      * rewrite (index_Ok _ h 0) by (rewrite length_map, length_seq; exact Hh).
        rewrite E0. reflexivity.
      * intros Gh alb em Tsky Tair lambd ep Cv ET0 Tint kc T0 hist.
        unfold A_hour, guess. rewrite E0. split; [reflexivity|].
        unfold T_prev. destruct (h =? 0)%nat; [reflexivity|].
        destruct (Rlt_dec 0.4 0) as [Hlt|_]; [exfalso; lra | reflexivity].
Qed.

Lemma night_hours_shadow_zero_witness :
  exists Pts_list row,
    shadow_table sample_layer sample_files (fun _ => None) = Ok Pts_list /\
    In row (pts_matrix Pts_list) /\ pt row = sample_attrs 1 /\
    index (Shadow1 row) 0 = Ok 0 /\ index (Shadow1 row) 23 = Ok 0.
Proof.
  destruct (night_hours_shadow_zero sample_layer sample_files (fun _ => None))
    as (Pts_list & E & _ & H).
  - discriminate.
  - simpl. constructor; [|constructor; [|constructor]]; simpl; intuition discriminate.
  - destruct (H (sample_attrs 1)) as (row & Hin & Hpt & _ & Hh); [left; reflexivity|].
    exists Pts_list, row. split; [exact E|]. split; [exact Hin|]. split; [exact Hpt|].
    split.
    + apply (Hh 0%nat); [lia|]. simpl. intuition discriminate.
    + apply (Hh 23%nat); [lia|]. simpl. intuition discriminate.
Defined.

(** * Further properties of the code *)

(** ** The first data row of the weather file *)

Lemma scan_header_data (header : list (list string)) (row : list string)
    (rest : list (list string)) (i : nat) (last : option nat) :
  (forall h, In h header -> exists f tl, h = f :: tl /\ isdigit f = false) ->
  (exists f tl, row = f :: tl /\ isdigit f = true) ->
  scan_header (header ++ row :: rest) i last = Ok (i + List.length header)%nat.
Proof.
  intros Hh (f & tl & -> & Hf). revert i last.
  induction header as [|h header IH]; intros i last.
  - cbn [app scan_header index nth_error bind]. rewrite Hf. simpl. f_equal. lia.
  - destruct (Hh h (or_introl eq_refl)) as (g & tl' & -> & Hg).
    cbn [app scan_header index nth_error bind]. rewrite Hg.
    rewrite IH by (intros h' Hh'; apply Hh; right; exact Hh').
    f_equal. simpl. lia.
Qed.

(** X1.  When the rows before the first row with a numeric first field all
    have a first field, [first_row] is the index of that row, and
    [WeatherData] starts with it: the header is skipped, whatever its
    length, and no data row is. *)
Theorem first_row_skips_header (parse_row : list string -> weather_row)
    (header : list (list string)) (row : list string) (rest : list (list string)) :
  (forall h, In h header -> exists f tl, h = f :: tl /\ isdigit f = false) ->
  (exists f tl, row = f :: tl /\ isdigit f = true) ->
  first_row (header ++ row :: rest) = Ok (List.length header) /\
  read_csv parse_row (header ++ row :: rest) (List.length header)
  = map parse_row (row :: rest).
Proof.
  intros Hh Hr. split.
  - unfold first_row. rewrite (scan_header_data header row rest 0 None Hh Hr).
    reflexivity.
  - unfold read_csv. f_equal.
    rewrite skipn_app, skipn_all, Nat.sub_diag. reflexivity.
Qed.

Lemma first_row_skips_header_witness :
  first_row [["LOCATION"; "Paris"]; ["DATA PERIODS"; "1"]; ["2020"; "7"; "21"]]%string
  = Ok 2%nat.
Proof.
  apply (first_row_skips_header sample_parse
           [["LOCATION"; "Paris"]; ["DATA PERIODS"; "1"]]%string
           ["2020"; "7"; "21"]%string []).
  - intros h [<-|[<-|[]]]; eexists _, _; split; reflexivity.
  - eexists _, _. split; reflexivity.
Defined.

(** ** The day ordinal *)

Lemma month_cases (month : Z) :
  (1 <= month <= 12)%Z ->
  month = 1%Z \/ month = 2%Z \/ month = 3%Z \/ month = 4%Z \/ month = 5%Z \/
  month = 6%Z \/ month = 7%Z \/ month = 8%Z \/ month = 9%Z \/ month = 10%Z \/
  month = 11%Z \/ month = 12%Z.
Proof. lia. Qed.

Ltac each_month H :=
  destruct (month_cases _ H) as
    [?|[?|[?|[?|[?|[?|[?|[?|[?|[?|[?|?]]]]]]]]]]]; subst.

Ltac month_sums :=
  repeat match goal with
  | |- context [fold_left Z.add ?l 0%Z] =>
      let v := eval vm_compute in (fold_left Z.add l 0%Z) in
      change (fold_left Z.add l 0%Z) with v
  | H : context [fold_left Z.add ?l 0%Z] |- _ =>
      let v := eval vm_compute in (fold_left Z.add l 0%Z) in
      change (fold_left Z.add l 0%Z) with v in H
  | |- context [days_in_month ?m] =>
      let v := eval vm_compute in (days_in_month m) in
      change (days_in_month m) with v
  | H : context [days_in_month ?m] |- _ =>
      let v := eval vm_compute in (days_in_month m) in
      change (days_in_month m) with v in H
  end.

(** X2.  For every month and day the parameters allow, the day ordinal
    lies between 1 and 365.  Over the dates of a year of 365 days it is
    one-to-one; a day past the end of a month is counted into the next
    month, so that 29 February has the ordinal of 1 March. *)
Theorem day_ordinal_calendar :
  (forall month day, (1 <= month <= 12)%Z -> (1 <= day <= 31)%Z ->
     (1 <= day_ordinal month day <= 365)%Z) /\
  (forall m1 d1 m2 d2, valid_date m1 d1 -> valid_date m2 d2 ->
     day_ordinal m1 d1 = day_ordinal m2 d2 -> m1 = m2 /\ d1 = d2) /\
  (forall month k, (1 <= month <= 11)%Z ->
     day_ordinal month (days_in_month month + k) = day_ordinal (month + 1) k).
Proof.
  split; [|split].
  - intros month day Hm Hd. rewrite day_ordinal_months by exact Hm.
    each_month Hm; month_sums; lia.
  - intros m1 d1 m2 d2 [Hm1 Hd1] [Hm2 Hd2] E.
    rewrite (day_ordinal_months m1) in E by exact Hm1.
    rewrite (day_ordinal_months m2) in E by exact Hm2.
    each_month Hm1; each_month Hm2; month_sums; lia.
  - intros month k Hm.
    rewrite (day_ordinal_months month), (day_ordinal_months (month + 1)) by lia.
    assert (Hm' : (1 <= month <= 12)%Z) by lia.
    each_month Hm'; try lia; month_sums; lia.
Qed.

Lemma day_ordinal_calendar_witness :
  (1 <= day_ordinal 7 21 <= 365)%Z /\ day_ordinal 2 (28 + 1) = day_ordinal 3 1.
Proof.
  destruct day_ordinal_calendar as (H1 & _ & H3). split.
  - apply H1; lia.
  - apply (H3 2%Z 1%Z). lia.
Defined.

(** ** Annual statistics of the air temperature *)

Lemma nth_map_lt (f : R -> R) (l : list R) (h : nat) :
  (h < List.length l)%nat -> nth h (map f l) 0 = f (nth h l 0).
Proof.
  intros H. rewrite (nth_indep _ 0 (f 0)) by (rewrite length_map; exact H).
  apply map_nth.
Qed.






(** ** Ground temperature within the annual amplitude *)




(** ** When [Evapo] returns *)

Ltac index_case l i :=
  let H := fresh "Hlen" in
  destruct (Nat.lt_ge_cases i (List.length l)) as [H|H];
  [rewrite (index_Ok l i 0 H) | rewrite (index_Raise l i H)];
  cbn [bind]; try reflexivity.

Lemma Evapo_hour_short (t : Z) (alt l : R) (Tair Gh Ha : list R) (lat alb : R) (i : nat) :
  (List.length Tair <= i \/ List.length Gh <= i \/ List.length Ha <= i)%nat ->
  Evapo_hour t alt l Tair Gh Ha lat alb i = Raise IndexError.
Proof.
  intros H. unfold Evapo_hour, ET_terms. cbv zeta.
  index_case Tair i. index_case Gh i. index_case Ha i. lia.
Qed.

(** X5.  [Evapo] returns exactly when each of the three hourly series has
    at least 24 entries; otherwise it raises [IndexError], whatever the
    other inputs, and returns no partial list. *)
Theorem Evapo_returns_iff (t : Z) (alt l : R) (Tair Gh Ha : list R) (lat alb : R) :
  ((24 <= List.length Tair)%nat /\ (24 <= List.length Gh)%nat /\
   (24 <= List.length Ha)%nat ->
   exists ETO, Evapo t alt l Tair Gh Ha lat alb = Ok ETO) /\
  (~ ((24 <= List.length Tair)%nat /\ (24 <= List.length Gh)%nat /\
      (24 <= List.length Ha)%nat) ->
   Evapo t alt l Tair Gh Ha lat alb = Raise IndexError).
Proof.
  split.
  - intros (H1 & H2 & H3). apply Evapo_total; assumption.
  - intros H. unfold Evapo.
    set (m := Nat.min (List.length Tair) (Nat.min (List.length Gh) (List.length Ha))).
    assert (Hm : (m < 24)%nat) by (unfold m; lia).
    replace 24%nat with (m + S (23 - m))%nat by lia.
    rewrite seq_app. cbn [seq]. apply mapM_Raise.
    + intros i Hi. apply in_seq in Hi. apply Evapo_hour_total; unfold m in *; lia.
    + apply Evapo_hour_short. unfold m. lia.
Qed.

Lemma Evapo_returns_iff_witness :
  Evapo 202 100 0 [300; 299] (hours 500) (hours 50) 45 0.3 = Raise IndexError.
Proof.
  destruct (Evapo_returns_iff 202 100 0 [300; 299] (hours 500) (hours 50) 45 0.3) as [_ H].
  apply H. simpl. lia.
Defined.

(** ** The roots of the energy balance *)

Lemma thermal_equation_increasing (A B C x y : R) :
  0 < B -> 0 <= C -> 0 <= x -> x < y ->
  thermal_equation x A B C < thermal_equation y A B C.
Proof.
  intros HB HC Hx Hxy. unfold thermal_equation.
  assert (H4 : x ^ 4 <= y ^ 4) by (apply pow_incr; lra).
  nra.
Qed.

(** X6.  For [B > 0], [C >= 0] and [A <= 0] the equation
    [A + B x + C x^4 = 0] has exactly one solution among the non-negative
    temperatures, and it is at most [- A / B]; a smaller [A] gives a
    solution at least as large. *)
Theorem thermal_equation_one_root (A B C : R) :
  0 < B -> 0 <= C ->
  (A <= 0 -> exists x, 0 <= x <= - A / B /\ thermal_equation x A B C = 0) /\
  (forall x y, 0 <= x -> 0 <= y ->
     thermal_equation x A B C = 0 -> thermal_equation y A B C = 0 -> x = y) /\
  (forall A' x y, A' <= A -> 0 <= x -> 0 <= y ->
     thermal_equation x A B C = 0 -> thermal_equation y A' B C = 0 -> x <= y).
Proof.
  intros HB HC. split; [|split].
  - intros HA.
    assert (Hcont : continuity (fun x => thermal_equation x A B C)).
    { unfold thermal_equation. reg. }
    destruct (IVT_cor (fun x => thermal_equation x A B C) 0 (- A / B) Hcont)
      as (z & Hz & Ez).
    + apply Rmult_le_pos; [lra | left; apply Rinv_0_lt_compat; assumption].
    + unfold thermal_equation.
      replace (A + B * (- A / B) + C * (- A / B) ^ 4) with (C * (- A / B) ^ 4)
        by (field; lra).
      assert (0 <= (- A / B) ^ 4).
      { replace ((- A / B) ^ 4) with (((- A / B) ^ 2) * ((- A / B) ^ 2)) by ring.
        apply Rmult_le_pos; apply pow2_ge_0. }
      assert (0 <= C * (- A / B) ^ 4) by (apply Rmult_le_pos; assumption).
      replace (A + B * 0 + C * 0 ^ 4) with A by ring.
      nra.
    + exists z. split; assumption.
  - intros x y Hx Hy Ex Ey.
    destruct (Rtotal_order x y) as [Hlt|[E|Hgt]]; [|exact E|].
    + pose proof (thermal_equation_increasing A B C x y HB HC Hx Hlt). lra.
    + pose proof (thermal_equation_increasing A B C y x HB HC Hy Hgt). lra.
  - intros A' x y HA Hx Hy Ex Ey.
    destruct (Rle_or_lt x y) as [Hle|Hgt]; [exact Hle|].
    pose proof (thermal_equation_increasing A' B C y x HB HC Hy Hgt) as H.
    unfold thermal_equation in *. lra.
Qed.

Lemma thermal_equation_one_root_witness :
  exists x, 0 <= x <= - (-1800) / 75 /\ thermal_equation x (-1800) 75 (0.9 * sigma) = 0.
Proof.
  destruct (thermal_equation_one_root (-1800) 75 (0.9 * sigma)) as [H _].
  - lra.
  - unfold sigma. lra.
  - apply H. lra.
Defined.

(** X7.  All else equal, the coefficient [A] does not increase with the
    sunlit fraction when the radiation is not negative and the albedo is
    at most 1; so, for [B > 0] and [C >= 0], the non-negative solution of
    the hour's equation for the larger sunlit fraction is at least the one
    for the smaller. *)
Theorem more_sun_is_hotter (s1 s2 Gh alb em Tsky Tair lambd ep Cv ET0 kc Tint T0 : R)
    (B C x1 x2 : R) :
  0 <= Gh -> alb <= 1 -> s1 <= s2 -> 0 < B -> 0 <= C ->
  0 <= x1 -> 0 <= x2 ->
  thermal_equation x1 (compute_A s1 Gh alb em Tsky Tair lambd ep Cv ET0 kc Tint T0) B C = 0 ->
  thermal_equation x2 (compute_A s2 Gh alb em Tsky Tair lambd ep Cv ET0 kc Tint T0) B C = 0 ->
  compute_A s2 Gh alb em Tsky Tair lambd ep Cv ET0 kc Tint T0
  <= compute_A s1 Gh alb em Tsky Tair lambd ep Cv ET0 kc Tint T0 /\
  x1 <= x2.
Proof.
  intros HG Ha Hs HB HC H1 H2 E1 E2.
  assert (HA : compute_A s2 Gh alb em Tsky Tair lambd ep Cv ET0 kc Tint T0
               <= compute_A s1 Gh alb em Tsky Tair lambd ep Cv ET0 kc Tint T0).
  { rewrite !compute_A_formula.
    assert (0 <= Gh * (1 - alb)) by (apply Rmult_le_pos; lra).
    nra. }
  split; [exact HA|].
  destruct (Rle_or_lt x1 x2) as [Hle|Hgt]; [exact Hle|].
  pose proof (thermal_equation_increasing
                (compute_A s2 Gh alb em Tsky Tair lambd ep Cv ET0 kc Tint T0)
                B C x2 x1 HB HC H2 Hgt) as H.
  unfold thermal_equation in *. lra.
Qed.

Lemma more_sun_is_hotter_witness :
  compute_A 1 100 0 0 0 0 0 1 0 0 0 0 0 <= compute_A 0 100 0 0 0 0 0 1 0 0 0 0 0 /\
  20 <= 100.
Proof.
  apply (more_sun_is_hotter 0 1 100 0 0 0 0 0 1 0 0 0 0 0 1 0 20 100); try lra.
  - unfold thermal_equation, compute_A, hc, sigma. lra.
  - unfold thermal_equation, compute_A, hc, sigma. lra.
Defined.

(** ** A pass of the solver and the list it overwrites *)

Section PassFacts.

Variable root : R -> R -> R -> R -> R.
Variables (id : Z) (FixedTemp : R) (Shadow : list R) (B C : R).
Variables (Gh : list R) (alb em : R) (Tsky Tair : list R).
Variables (lambd ep Cv : R) (ET0 Tint : list R) (kc : R).

Local Abbreviation hour_step' :=
  (hour_step root Shadow B C Gh alb em Tsky Tair lambd ep Cv ET0 Tint kc).
Local Abbreviation for_hours' :=
  (for_hours root Shadow B C Gh alb em Tsky Tair lambd ep Cv ET0 Tint kc).
Local Abbreviation day_pass' :=
  (day_pass root Shadow B C Gh alb em Tsky Tair lambd ep Cv ET0 Tint kc).
Local Abbreviation compute_temp' :=
  (compute_temp root id FixedTemp Shadow B C Gh alb em Tsky Tair lambd ep Cv ET0 Tint kc).

(** The number of hours for which all six series have an entry. *)
Let served : nat :=
  Nat.min (List.length Shadow)
    (Nat.min (List.length Gh)
       (Nat.min (List.length Tsky)
          (Nat.min (List.length Tair)
             (Nat.min (List.length ET0) (List.length Tint))))).

Lemma hour_step_served (T0 : R) (Temp : list R) (h : nat) :
  (h < 24)%nat -> (h < served)%nat -> List.length Temp = 24%nat ->
  exists t, hour_step' T0 Temp h = Ok t /\ List.length t = 24%nat.
Proof.
  intros Hh Hs HT. unfold served in Hs. unfold hour_step.
  rewrite (index_Ok Shadow h 0), (index_Ok Gh h 0), (index_Ok Tsky h 0),
    (index_Ok Tair h 0), (index_Ok ET0 h 0), (index_Ok Tint h 0) by lia.
  cbn [bind]. destruct (h =? 0)%nat eqn:E0.
  - match goal with |- context [setitem Temp h ?v] =>
      destruct (setitem_Ok Temp h v) as (t & E & Hl & _); [lia|] end.
    exists t. rewrite E. split; [reflexivity | lia].
  - rewrite (index_Ok Temp (h - 1) 0) by lia. cbn [bind].
    destruct (Rlt_dec 0.4 (nth h Shadow 0));
      match goal with |- context [setitem Temp h ?v] =>
        destruct (setitem_Ok Temp h v) as (t & E & Hl & _); [lia|] end;
      exists t; rewrite E; (split; [reflexivity | lia]).
Qed.

Lemma hour_step_unserved (T0 : R) (Temp : list R) (h : nat) :
  (served <= h)%nat -> hour_step' T0 Temp h = Raise IndexError.
Proof.
  intros Hs. unfold served in Hs. unfold hour_step.
  index_case Shadow h. index_case Gh h. index_case Tsky h.
  index_case Tair h. index_case ET0 h. index_case Tint h.
  exfalso. lia.
Qed.

Lemma for_hours_served (n a : nat) (T0 : R) (Temp : list R) :
  (a + n <= 24)%nat -> (a + n <= served)%nat -> List.length Temp = 24%nat ->
  exists t, for_hours' (seq a n) T0 Temp = Ok t /\ List.length t = 24%nat.
Proof.
  revert a Temp. induction n as [|n IH]; intros a Temp H1 H2 HT.
  - exists Temp. split; [reflexivity | exact HT].
  - cbn [seq for_hours].
    destruct (hour_step_served T0 Temp a) as (t1 & E1 & L1); [lia | lia | exact HT |].
    rewrite E1. cbn [bind]. apply IH; [lia | lia | exact L1].
Qed.

Lemma for_hours_app (l1 l2 : list nat) (T0 : R) (Temp : list R) :
  for_hours' (l1 ++ l2) T0 Temp = t <- for_hours' l1 T0 Temp ;; for_hours' l2 T0 t.
Proof.
  revert Temp. induction l1 as [|h l1 IH]; intros Temp; [reflexivity|].
  cbn [app for_hours]. destruct (hour_step' T0 Temp h) as [t| |]; cbn [bind];
    [apply IH | reflexivity | reflexivity].
Qed.

Lemma day_pass_unserved (T0 : R) (Temp : list R) :
  (served < 24)%nat -> List.length Temp = 24%nat ->
  day_pass' T0 Temp = Raise IndexError.
Proof.
  intros Hs HT. unfold day_pass.
  replace 24%nat with (served + S (23 - served))%nat by lia.
  rewrite seq_app, for_hours_app.
  destruct (for_hours_served served 0 T0 Temp) as (t & E & L); [lia | lia | exact HT |].
  rewrite E. cbn [bind seq for_hours].
  rewrite hour_step_unserved by lia. reflexivity.
Qed.

Lemma while_loop_first_pass (fuel count : nat) (T0 : R) (Temp : list R) (e : exn) :
  day_pass' T0 Temp = Raise e ->
  while_loop root id Shadow B C Gh alb em Tsky Tair lambd ep Cv ET0 Tint kc
    (S fuel) count T0 Temp = Raise e.
Proof. intros H. cbn [while_loop]. rewrite H. reflexivity. Qed.

(** X8.  [compute_temp] returns, and then 24 values, exactly when
    [FixedTemp] is not 0 or each of the six hourly series has at least 24
    entries.  With [FixedTemp = 0] and a shorter series it raises
    [IndexError] in its first pass, pushing no message. *)
Theorem compute_temp_returns_iff :
  ((FixedTemp <> 0 \/ (24 <= served)%nat) ->
   exists t log,
     compute_temp root id FixedTemp Shadow B C Gh alb em Tsky Tair lambd ep Cv ET0 Tint kc
     = Ok (t, log) /\ List.length t = 24%nat) /\
  (FixedTemp = 0 -> (served < 24)%nat ->
   compute_temp root id FixedTemp Shadow B C Gh alb em Tsky Tair lambd ep Cv ET0 Tint kc
   = Raise IndexError).
Proof.
  split.
  - intros [HF|Hs].
    + exists (repeat FixedTemp 24), []. split; [apply compute_temp_fixed; exact HF|].
      apply repeat_length.
    + unfold served in Hs.
      destruct (compute_temp_total root id FixedTemp Shadow B C Gh alb em Tsky Tair
                  lambd ep Cv ET0 Tint kc) as (t & log & E & L & _); try lia.
      exists t, log. split; assumption.
  - intros HF Hs. unfold compute_temp, compute_temp_fuel.
    destruct (Req_dec_T FixedTemp 0) as [_|N]; [|contradiction].
    rewrite (while_loop_first_pass 24 0 (28 + 273.15) (repeat 0 24) IndexError);
      [reflexivity|].
    apply day_pass_unserved; [exact Hs | reflexivity].
Qed.

Hypothesis len_Shadow : (24 <= List.length Shadow)%nat.
Hypothesis len_Gh : (24 <= List.length Gh)%nat.
Hypothesis len_Tsky : (24 <= List.length Tsky)%nat.
Hypothesis len_Tair : (24 <= List.length Tair)%nat.
Hypothesis len_ET0 : (24 <= List.length ET0)%nat.
Hypothesis len_Tint : (24 <= List.length Tint)%nat.

Lemma day_pass_same (T0 : R) (Temp1 Temp2 : list R) :
  List.length Temp1 = 24%nat -> List.length Temp2 = 24%nat ->
  day_pass' T0 Temp1 = day_pass' T0 Temp2.
Proof.
  intros L1 L2.
  destruct (day_pass_spec root Shadow B C Gh alb em Tsky Tair lambd ep Cv ET0 Tint kc
              len_Shadow len_Gh len_Tsky len_Tair len_ET0 len_Tint T0 Temp1 L1)
    as (t1 & E1 & Lt1 & H1).
  destruct (day_pass_spec root Shadow B C Gh alb em Tsky Tair lambd ep Cv ET0 Tint kc
              len_Shadow len_Gh len_Tsky len_Tair len_ET0 len_Tint T0 Temp2 L2)
    as (t2 & E2 & Lt2 & H2).
  rewrite E1, E2. f_equal.
  assert (Hn : forall n h, (h < n)%nat -> (h < 24)%nat -> nth h t1 0 = nth h t2 0).
  { induction n as [|n IH]; intros h Hh H24; [lia|].
    rewrite (H1 h H24), (H2 h H24).
    assert (X : forall j, (j < h)%nat -> nth j t1 0 = nth j t2 0)
      by (intros j Hj; apply IH; lia).
    assert (EP : T_prev T0 t1 h = T_prev T0 t2 h).
    { unfold T_prev. destruct h as [|h']; simpl; [reflexivity|].
      rewrite Nat.sub_0_r. apply X. lia. }
    unfold guess, A_hour. rewrite EP. reflexivity. }
  apply (nth_ext t1 t2 0 0); [lia|].
  intros h Hh. apply (Hn (S h)); lia.
Qed.

(** X9.  With 24 entries in each series, a pass depends on the list it
    overwrites only through its length: the values left by the pass before
    are never read, and the pass is a function of [T0] alone.  Hence a pass
    that ends at hour 23 on the [T0] it started from is repeated unchanged
    by the pass that follows. *)
Theorem day_pass_depends_on_T0_only (T0 : R) (Temp1 Temp2 : list R) :
  List.length Temp1 = 24%nat -> List.length Temp2 = 24%nat ->
  day_pass root Shadow B C Gh alb em Tsky Tair lambd ep Cv ET0 Tint kc T0 Temp1
  = day_pass root Shadow B C Gh alb em Tsky Tair lambd ep Cv ET0 Tint kc T0 Temp2 /\
  forall t,
    day_pass root Shadow B C Gh alb em Tsky Tair lambd ep Cv ET0 Tint kc T0 Temp1 = Ok t ->
    nth 23 t 0 = T0 ->
    day_pass root Shadow B C Gh alb em Tsky Tair lambd ep Cv ET0 Tint kc (nth 23 t 0) t
    = Ok t.
Proof.
  intros L1 L2. split; [apply day_pass_same; assumption|].
  intros t E E23.
  destruct (day_pass_spec root Shadow B C Gh alb em Tsky Tair lambd ep Cv ET0 Tint kc
              len_Shadow len_Gh len_Tsky len_Tair len_ET0 len_Tint T0 Temp1 L1)
    as (t' & E' & Lt & _).
  rewrite E in E'. inversion E'; subst t'.
  rewrite E23, <- E. apply day_pass_same; assumption.
Qed.

End PassFacts.

Lemma compute_temp_returns_iff_witness :
  compute_temp root_choice 7 0 [1; 1] (row_B 1 0.1 2000000) (row_C 0.9)
    (hours 500) 0.3 0.9 (hours 280) (hours 290) 1 0.1 2000000 (hours 0) (hours 285) 0.9
  = Raise IndexError.
Proof.
  pose proof (compute_temp_returns_iff root_choice 7 0 [1; 1] (row_B 1 0.1 2000000)
                (row_C 0.9) (hours 500) 0.3 0.9 (hours 280) (hours 290) 1 0.1 2000000
                (hours 0) (hours 285) 0.9) as H.
  cbv zeta in H. destruct H as [_ H].
  apply H; [reflexivity | simpl; lia].
Defined.

Lemma day_pass_depends_on_T0_only_witness :
  day_pass root_choice (hours 1) (row_B 1 0.1 2000000) (row_C 0.9)
    (hours 500) 0.3 0.9 (hours 280) (hours 290) 1 0.1 2000000 (hours 0) (hours 285) 0.9
    300 (hours 0)
  = day_pass root_choice (hours 1) (row_B 1 0.1 2000000) (row_C 0.9)
      (hours 500) 0.3 0.9 (hours 280) (hours 290) 1 0.1 2000000 (hours 0) (hours 285) 0.9
      300 (hours 310).
Proof.
  destruct (day_pass_depends_on_T0_only root_choice (hours 1) (row_B 1 0.1 2000000)
              (row_C 0.9) (hours 500) 0.3 0.9 (hours 280) (hours 290) 1 0.1 2000000
              (hours 0) (hours 285) 0.9
              (le_n 24) (le_n 24) (le_n 24) (le_n 24) (le_n 24) (le_n 24)
              300 (hours 0) (hours 310) eq_refl eq_refl) as [H _].
  exact H.
Defined.

(** ** What convergence compares, and what is returned *)

(** X10.  With [FixedTemp = 0] and 24 entries in each series: when
    [compute_temp] reports that equilibrium is reached, the temperatures
    of hour 23 of its last two passes differ by less than 0.5; and each of
    the 24 values returned is the temperature of the last pass minus
    273.15, rounded to two decimals, so within 0.005 of it. *)
Theorem convergence_and_output (root : R -> R -> R -> R -> R) (id : Z) (FixedTemp : R)
    (Shadow : list R) (B C : R) (Gh : list R) (alb em : R) (Tsky Tair : list R)
    (lambd ep Cv : R) (ET0 Tint : list R) (kc : R) :
  FixedTemp = 0 ->
  (24 <= List.length Shadow)%nat -> (24 <= List.length Gh)%nat ->
  (24 <= List.length Tsky)%nat -> (24 <= List.length Tair)%nat ->
  (24 <= List.length ET0)%nat -> (24 <= List.length Tint)%nat ->
  exists (ret last : list R) (n : nat) (log : list info),
    compute_temp root id FixedTemp Shadow B C Gh alb em Tsky Tair lambd ep Cv ET0 Tint kc
    = Ok (ret, log) /\
    passes root Shadow B C Gh alb em Tsky Tair lambd ep Cv ET0 Tint kc n
    = Ok (nth 23 last 0, last) /\
    (forall h, (h < 24)%nat ->
       nth h ret 0 = round2 (nth h last 0 - 273.15) /\
       Rabs (nth h ret 0 - (nth h last 0 - 273.15)) <= 0.005) /\
    (log = [EquilibriumReached n] ->
     exists T0 before,
       passes root Shadow B C Gh alb em Tsky Tair lambd ep Cv ET0 Tint kc (n - 1)
       = Ok (T0, before) /\
       T0 = nth 23 before 0 /\
       Rabs (nth 23 last 0 - nth 23 before 0) < 0.5).
Proof.
  intros HF H1 H2 H3 H4 H5 H6.
  destruct (while_loop_spec root id Shadow B C Gh alb em Tsky Tair lambd ep Cv ET0 Tint kc
              H1 H2 H3 H4 H5 H6 25 0 (28 + 273.15) (repeat 0 24))
    as (t & n & log & E & _ & Hn & Hp & _ & Hstop);
    [lia | lia | reflexivity | intros; lia |].
  assert (Lt : List.length t = 24%nat).
  { destruct (passes_total root Shadow B C Gh alb em Tsky Tair lambd ep Cv ET0 Tint kc
                H1 H2 H3 H4 H5 H6 n) as (T0' & t' & E' & L').
    rewrite Hp in E'. inversion E'; subst. exact L'. }
  exists (map (fun T => round2 (T - 273.15)) t), t, n, log.
  split; [|split; [exact Hp|split]].
  - unfold compute_temp, compute_temp_fuel.
    destruct (Req_dec_T FixedTemp 0) as [_|N]; [|contradiction].
    rewrite E. reflexivity.
  - intros h Hh. rewrite nth_map_lt by lia. split; [reflexivity | apply round2_err].
  - intros Hlog. destruct Hstop as [[Hc _]|[_ [_ Hl]]]; [|congruence].
    destruct Hc as (T0 & before & t23 & t' & Eb & En & Hlt).
    rewrite Hp in En. inversion En; subst t23 t'.
    exists T0, before. split; [exact Eb|].
    assert (ET0' : T0 = nth 23 before 0).
    { destruct n as [|[|m]]; try lia.
      replace (S (S m) - 1)%nat with (S m) in Eb by lia.
      destruct (passes_total root Shadow B C Gh alb em Tsky Tair lambd ep Cv ET0 Tint kc
                  H1 H2 H3 H4 H5 H6 m) as (T0m & tm & Em & Lm).
      destruct (passes_S root Shadow B C Gh alb em Tsky Tair lambd ep Cv ET0 Tint kc
                  H1 H2 H3 H4 H5 H6 m T0m tm Em) as (x & _ & _ & ES).
      rewrite ES in Eb. inversion Eb. reflexivity. }
    split; [exact ET0'|]. rewrite <- ET0'. exact Hlt.
Qed.

Lemma convergence_and_output_witness :
  exists (ret last : list R) (n : nat) (log : list info),
    compute_temp root_choice 7 0 (hours 1) (row_B 1 0.1 2000000) (row_C 0.9)
      (hours 500) 0.3 0.9 (hours 280) (hours 290) 1 0.1 2000000 (hours 0) (hours 285) 0.9
    = Ok (ret, log) /\
    passes root_choice (hours 1) (row_B 1 0.1 2000000) (row_C 0.9)
      (hours 500) 0.3 0.9 (hours 280) (hours 290) 1 0.1 2000000 (hours 0) (hours 285) 0.9 n
    = Ok (nth 23 last 0, last) /\
    Rabs (nth 0 ret 0 - (nth 0 last 0 - 273.15)) <= 0.005.
Proof.
  destruct (convergence_and_output root_choice 7 0 (hours 1) (row_B 1 0.1 2000000)
              (row_C 0.9) (hours 500) 0.3 0.9 (hours 280) (hours 290) 1 0.1 2000000
              (hours 0) (hours 285) 0.9)
    as (ret & last & n & log & E & Ep & Hh & _); try reflexivity; try (simpl; lia).
  exists ret, last, n, log. split; [exact E|]. split; [exact Ep|].
  apply (Hh 0%nat). lia.
Defined.

(** ** Which layers stop the run *)

Lemma prefix_app (a s : string) :
  prefix a s = true <-> exists post, s = (a ++ post)%string.
Proof.
  revert s. induction a as [|c a IH]; intros s.
  - split; [intros _; exists s; reflexivity|]. intros _. destruct s; reflexivity.
  - destruct s as [|d s]; cbn [prefix append].
    + split; [discriminate | intros [post H]; discriminate].
    + destruct (ascii_dec c d) as [->|NE].
      * rewrite IH. split; intros [post H]; exists post; [rewrite H; reflexivity|].
        inversion H. reflexivity.
      * split; [discriminate|]. intros [post H]. inversion H. congruence.
Qed.

(** [sub in s] holds exactly when [s] is some text, [sub], some text. *)
Lemma contains_spec (sub s : string) :
  contains sub s = true <-> exists pre post, s = (pre ++ sub ++ post)%string.
Proof.
  induction s as [|c s IH]; cbn [contains].
  - rewrite orb_false_r, prefix_app. split.
    + intros [post H]. exists EmptyString, post. exact H.
    + intros (pre & post & H). destruct pre as [|d pre]; [|discriminate].
      exists post. exact H.
  - rewrite orb_true_iff, prefix_app, IH. split.
    + intros [[post H]|(pre & post & H)].
      * exists EmptyString, post. exact H.
      * exists (String c pre), post. rewrite H. reflexivity.
    + intros (pre & post & H). destruct pre as [|d pre].
      * left. exists post. exact H.
      * right. inversion H. exists pre, post. reflexivity.
Qed.

Lemma split_head_app (sep : ascii) (pre tail : string) :
  contains (String sep EmptyString) pre = false ->
  split_head sep (pre ++ String sep tail) = pre.
Proof.
  induction pre as [|c pre IH]; intros H; cbn [append split_head].
  - rewrite Ascii.eqb_refl. reflexivity.
  - cbn [contains prefix] in H. apply orb_false_elim in H. destruct H as [H1 H2].
    destruct (Ascii.eqb_spec c sep) as [E|NE].
    + subst c. destruct (ascii_dec sep sep) as [_|N]; [|contradiction].
      destruct pre; discriminate.
    + rewrite IH by exact H2. reflexivity.
Qed.

Lemma check_paths_clear (paths : list string) :
  (forall path, In path paths -> contains "ComputedPoints.csv" path = false) ->
  check_paths paths = (Ok tt, []).
Proof.
  induction paths as [|p ps IH]; intros H; [reflexivity|].
  cbn [check_paths]. rewrite (H p (or_introl eq_refl)).
  apply IH. intros q Hq. apply H. right. exact Hq.
Qed.

(** X11.  Once the row of the time-zone table is read, the run stops on
    the check of the layers exactly when the data source of some layer, up
    to its first ['|'], contains ['ComputedPoints.csv']; otherwise what
    follows the check runs, and the check pushes no message.  A data source
    that names the file only after its first ['|'] does not stop the
    run. *)
Theorem result_layer_detection {A : Type} (fuseau_list : list R) (fuseau : nat)
    (uris : list string) (rest : R -> result A * list string) (longz : R) :
  index fuseau_list fuseau = Ok longz ->
  ((exists uri pre post,
      In uri uris /\
      split_head "|" uri = (pre ++ "ComputedPoints.csv" ++ post)%string) ->
   processAlgorithm fuseau_list fuseau uris rest
   = (Raise (SystemExit msg_exit), [msg_result_layer])) /\
  ((forall uri pre post,
      In uri uris ->
      split_head "|" uri <> (pre ++ "ComputedPoints.csv" ++ post)%string) ->
   processAlgorithm fuseau_list fuseau uris rest = rest longz) /\
  (forall source tail,
     contains "|" source = false -> contains "ComputedPoints.csv" source = false ->
     processAlgorithm fuseau_list fuseau [(source ++ String "|" tail)%string] rest
     = rest longz).
Proof.
  intros Hi.
  assert (Hclear : forall us,
            (forall u, In u us ->
               contains "ComputedPoints.csv" (split_head "|" u) = false) ->
            processAlgorithm fuseau_list fuseau us rest = rest longz).
  { intros us H. unfold processAlgorithm. rewrite Hi.
    rewrite check_paths_clear.
    - destruct (rest longz) as [r log]. reflexivity.
    - intros path Hp. apply in_map_iff in Hp. destruct Hp as (u & <- & Hu).
      apply H. exact Hu. }
  split; [|split].
  - intros (uri & pre & post & Hin & E). unfold processAlgorithm. rewrite Hi.
    rewrite check_paths_detects; [reflexivity|].
    exists (split_head "|" uri). split; [apply in_map; exact Hin|].
    apply contains_spec. exists pre, post. exact E.
  - intros H. apply Hclear. intros u Hu.
    destruct (contains "ComputedPoints.csv" (split_head "|" u)) eqn:E; [|reflexivity].
    apply contains_spec in E. destruct E as (pre & post & E).
    exfalso. exact (H u pre post Hu E).
  - intros source tail Hs Hc. apply Hclear. intros u [<-|[]].
    rewrite split_head_app by exact Hs. exact Hc.
Qed.

Lemma result_layer_detection_witness :
  processAlgorithm [0; -15; -30] 0
    ["/home/user/project/Ground.shp|layername=ComputedPoints.csv"]%string
    (fun longz => (Ok longz, ["Creation of points grid"]%string))
  = (Ok 0, ["Creation of points grid"]%string).
Proof.
  destruct (result_layer_detection [0; -15; -30] 0
              ["/home/user/project/Ground.shp|layername=ComputedPoints.csv"]%string
              (fun longz => (Ok longz, ["Creation of points grid"]%string)) 0 eq_refl)
    as (_ & _ & H).
  apply (H "/home/user/project/Ground.shp"%string "layername=ComputedPoints.csv"%string);
    reflexivity.
Defined.

(** ** The table of sunlit fractions *)

Lemma last_raster_app (earlier later : list raster_file) (h : Z)
    (found : option (attrs -> R)) :
  last_raster (earlier ++ later) h found
  = last_raster later h (last_raster earlier h found).
Proof.
  revert found. induction earlier as [|[h' r] earlier IH]; intros found; [reflexivity|].
  cbn [app last_raster]. apply IH.
Qed.

Lemma shadow_at_last (earlier later : list raster_file) (h : Z) (raster : attrs -> R)
    (p : attrs) :
  ~ In h (map fst later) ->
  shadow_at (earlier ++ (h, raster) :: later) h p = raster p.
Proof.
  intros H. unfold shadow_at. rewrite last_raster_app. cbn [last_raster].
  rewrite Z.eqb_refl, last_raster_None by exact H. reflexivity.
Qed.

Lemma day_hours_In (h : Z) : (1 <= h <= 24)%Z -> In h day_hours.
Proof.
  intros H. unfold day_hours. apply in_map_iff.
  exists (Z.to_nat (h - 1)). split; [lia|]. apply in_seq. lia.
Qed.

Lemma flat_map_length_const {A B : Type} (f : A -> list B) (l : list A) (n : nat) :
  (forall a, List.length (f a) = n) ->
  List.length (flat_map f l) = (List.length l * n)%nat.
Proof.
  intros H. induction l as [|a l IH]; [reflexivity|].
  cbn [flat_map]. rewrite length_app, H, IH. reflexivity.
Qed.

(** X12.  With no shadow raster the run raises [UnboundLocalError].  With
    at least one, [Pts_list] has one row for each feature and each hour
    from 1 to 24, the same whatever [Step_4/Temp] held before; for an hour
    with rasters the row holds the value of the last of them in the order
    of the scan; and, the ids of the features being distinct, that value is
    the entry of the hour in the feature's row of [pts_matrix]. *)
Theorem shadow_table_contents (layer : list attrs) (files : list raster_file)
    (dir0 : tempdir) :
  shadow_table layer [] dir0 = Raise UnboundLocalError /\
  (files <> [] ->
   exists Pts_list,
     shadow_table layer files dir0 = Ok Pts_list /\
     List.length Pts_list = (24 * List.length layer)%nat /\
     (forall dir1, shadow_table layer files dir1 = Ok Pts_list) /\
     forall earlier later h raster p,
       files = earlier ++ (h, raster) :: later -> ~ In h (map fst later) ->
       (1 <= h <= 24)%Z -> In p layer ->
       In {| r_pt := p; r_Shadow1 := raster p; r_hour := h |} Pts_list /\
       (NoDup (map pt_id layer) ->
        exists row, In row (pts_matrix Pts_list) /\ pt row = p /\
                    index (Shadow1 row) (Z.to_nat (h - 1)) = Ok (raster p))).
Proof.
  split; [reflexivity|]. intros Hne.
  eexists. split; [apply shadow_table_spec; exact Hne|].
  split; [|split].
  - rewrite (flat_map_length_const _ _ (List.length layer))
      by (intros; apply length_map).
    unfold day_hours. rewrite length_map, length_seq. reflexivity.
  - intros dir1. apply shadow_table_spec. exact Hne.
  - intros earlier later h raster p Hf Hlater Hh Hp. subst files. split.
    + apply in_flat_map. exists h. split; [apply day_hours_In; exact Hh|].
      rewrite <- (shadow_at_last earlier later h raster p Hlater).
      exact (in_map (fun q => {| r_pt := q;
                                 r_Shadow1 := shadow_at (earlier ++ (h, raster) :: later) h q;
                                 r_hour := h |}) _ _ Hp).
    + intros Hnd.
      exists {| pt := p;
                Shadow1 := map (fun k => shadow_at (earlier ++ (h, raster) :: later) k p)
                               day_hours |}.
      split; [|split; [reflexivity|]].
      * pose proof day_hours_sorted as Hs.
        unfold day_hours in *. cbn [seq map] in *.
        apply (pts_matrix_row layer (shadow_at (earlier ++ (h, raster) :: later))
                 Hnd _ _ p Hs Hp).
      * cbn [Shadow1]. unfold day_hours. rewrite map_map.
        assert (Hlt : (Z.to_nat (h - 1) < 24)%nat) by lia.
        rewrite (index_Ok _ _ 0) by (rewrite length_map, length_seq; exact Hlt).
        rewrite nth_map_seq by exact Hlt.
        replace (Z.of_nat (Z.to_nat (h - 1) + 1)) with h by lia.
        rewrite shadow_at_last by exact Hlater. reflexivity.
Qed.

Lemma shadow_table_contents_witness :
  exists Pts_list,
    shadow_table sample_layer sample_files (fun _ => None) = Ok Pts_list /\
    List.length Pts_list = 48%nat /\
    In {| r_pt := sample_attrs 1; r_Shadow1 := 1; r_hour := 12 |} Pts_list.
Proof.
  destruct (shadow_table_contents sample_layer sample_files (fun _ => None)) as [_ H].
  destruct H as (Pts_list & E & L & _ & H); [discriminate|].
  exists Pts_list. split; [exact E|]. split; [exact L|].
  destruct (H [] [] 12%Z (fun _ : attrs => 1) (sample_attrs 1)) as [Hin _];
    try reflexivity; try lia.
  - intros [].
  - left. reflexivity.
  - exact Hin.
Defined.

(** ** Where the result of a point comes from *)

Lemma mapM_cons_inv {A B : Type} (f : A -> result B) (a : A) (l : list A) (ys : list B) :
  mapM f (a :: l) = Ok ys ->
  exists y ys', ys = y :: ys' /\ f a = Ok y /\ mapM f l = Ok ys'.
Proof.
  cbn [mapM]. destruct (f a) as [y| |]; cbn [bind]; try discriminate.
  destruct (mapM f l) as [ys'| |]; cbn [bind]; try discriminate.
  intros H. inversion H. eauto.
Qed.

Lemma Forall2_In_r {A B : Type} (P : A -> B -> Prop) (l : list A) (bs : list B) (b : B) :
  Forall2 P l bs -> In b bs -> exists a, In a l /\ P a b.
Proof.
  induction 1 as [|a b' l bs Hab _ IH]; intros Hb; [contradiction|].
  destruct Hb as [<-|Hb].
  - exists a. split; [left; reflexivity | exact Hab].
  - destruct (IH Hb) as (a' & Ha' & HP). exists a'. split; [right|]; assumption.
Qed.

Lemma filter_head {A : Type} (f : A -> bool) (l : list A) (x : A) (g : list A) :
  filter f l = x :: g ->
  exists before after,
    l = before ++ x :: after /\ (forall q, In q before -> f q = false) /\ f x = true.
Proof.
  induction l as [|a l IH]; intros H; [discriminate|].
  cbn [filter] in H. destruct (f a) eqn:E.
  - inversion H; subst. exists [], l. repeat split; [intros q []|exact E].
  - destruct (IH H) as (before & after & -> & Hb & Hx).
    exists (a :: before), after. repeat split; [|exact Hx].
    intros q [<-|Hq]; [exact E | apply Hb; exact Hq].
Qed.

Section Rows.

Variable str_tuple : list R -> string.
Variables fE fT : point -> result (list R).
Variable fS : point * (list R * list R) -> result (list R * list info).

Lemma add_columns_rows (sim : list point) (ETOs Tints : list (list R))
    (res : list (list R * list info)) (mins means maxs : list R) :
  mapM fT sim = Ok Tints -> mapM fE sim = Ok ETOs ->
  mapM fS (combine sim (combine ETOs Tints)) = Ok res ->
  mapM py_min (map fst res) = Ok mins ->
  mapM statistics_mean (map fst res) = Ok means ->
  mapM py_max (map fst res) = Ok maxs ->
  Forall2 (row_solved str_tuple fE fT fS) sim
          (add_columns str_tuple sim (map fst res) mins (map round2 means) maxs).
Proof.
  revert ETOs Tints res mins means maxs.
  induction sim as [|r sim IH]; intros ETOs Tints res mins means maxs HT HE HS Hmin Hmean Hmax.
  - constructor.
  - apply mapM_cons_inv in HT. destruct HT as (Ti & Tints' & -> & ETi & HT).
    apply mapM_cons_inv in HE. destruct HE as (ETO & ETOs' & -> & EETO & HE).
    cbn [combine] in HS.
    apply mapM_cons_inv in HS. destruct HS as ([t log] & res' & -> & ES & HS).
    cbn [map fst] in Hmin, Hmean, Hmax.
    apply mapM_cons_inv in Hmin. destruct Hmin as (lo & mins' & -> & Elo & Hmin).
    apply mapM_cons_inv in Hmean. destruct Hmean as (avg & means' & -> & Eavg & Hmean).
    apply mapM_cons_inv in Hmax. destruct Hmax as (hi & maxs' & -> & Ehi & Hmax).
    cbn [map fst add_columns]. constructor.
    + unfold row_solved. cbn [sv_key sv_id Temp_DegC min_DegC mean_DegC max_DegC].
      split; [reflexivity|]. split; [reflexivity|].
      exists ETO, Ti, log, avg. repeat split; assumption.
    + apply (IH ETOs' Tints' res' mins' means' maxs'); assumption.
Qed.

Lemma row_solved_keys (sim : list point) (rows : list solved) :
  Forall2 (row_solved str_tuple fE fT fS) sim rows ->
  map sv_key rows = map (key str_tuple) sim.
Proof.
  induction 1 as [|r s sim rows Hrs _ IH]; [reflexivity|].
  cbn [map]. f_equal; [apply Hrs | exact IH].
Qed.

Lemma simplified_first (pts : list point) (r : point) :
  In r (simplified str_tuple pts) ->
  exists before after,
    pts = before ++ r :: after /\
    forall q, In q before -> key str_tuple q <> key str_tuple r.
Proof.
  intros H. unfold simplified in H. apply in_flat_map in H.
  destruct H as (k & _ & Hr).
  destruct (filter (fun p => (key str_tuple p =? k)%string) pts) as [|x g] eqn:Ef;
    [contradiction|].
  destruct Hr as [<-|[]].
  destruct (filter_head _ _ _ _ Ef) as (before & after & E & Hb & Hx).
  exists before, after. split; [exact E|].
  apply String.eqb_eq in Hx. intros q Hq Eq.
  specialize (Hb q Hq). apply String.eqb_neq in Hb. congruence.
Qed.

End Rows.

Lemma temperatures_columns (root : R -> R -> R -> R -> R)
    (str_tuple : list R -> string) (parse_row : list string -> weather_row)
    (pts : list point) (rows : list (list string)) (month day : Z) (alt longz : R)
    (i : nat) :
  first_row rows = Ok i ->
  (24 <= List.length (filter (on_day month day) (read_csv parse_row rows i)))%nat ->
  (forall p, In p pts -> (24 <= List.length (Shadow1 p))%nat) ->
  exists dT sim log,
    deltaT (read_csv parse_row rows i) = Ok dT /\
    temperatures root str_tuple parse_row pts rows month day alt longz
    = Ok (merge str_tuple pts sim, log) /\
    Forall2
      (row_solved str_tuple
         (fun r => Evapo (day_ordinal month day) alt (longitude_offset pts longz)
                     (AirTemp (read_csv parse_row rows i) month day)
                     (SolarRadiation (read_csv parse_row rows i) month day)
                     (Humidity (read_csv parse_row rows i) month day)
                     (pt_Lat (pt r)) (pt_alb (pt r)))
         (fun r => Tint (day_ordinal month day) (Tyear (read_csv parse_row rows i)) dT
                     (Dh_of (pt_lambd (pt r)) (pt_Cv (pt r))))
         (fun x => solve_row root (SolarRadiation (read_csv parse_row rows i) month day)
                     (SkyTemp (read_csv parse_row rows i) month day)
                     (AirTemp (read_csv parse_row rows i) month day)
                     (fst x) (fst (snd x)) (snd (snd x))))
      (simplified str_tuple pts) sim.
Proof.
  intros Hfirst Hday Hsh.
  destruct (simplified_keys str_tuple pts) as [_ Hsim].
  unfold temperatures, longitude_offset. cbv zeta. rewrite Hfirst. cbn [bind].
  set (W := read_csv parse_row rows i) in *.
  assert (LT : (24 <= List.length (AirTemp W month day))%nat)
    by (unfold AirTemp; rewrite length_map; exact Hday).
  assert (LG : (24 <= List.length (SolarRadiation W month day))%nat)
    by (unfold SolarRadiation; rewrite length_map; exact Hday).
  assert (LS : (24 <= List.length (SkyTemp W month day))%nat)
    by (unfold SkyTemp; rewrite length_map; exact Hday).
  assert (LH : (24 <= List.length (Humidity W month day))%nat)
    by (unfold Humidity; rewrite length_map; exact Hday).
  destruct (deltaT_total W (read_csv_nonempty parse_row rows i Hfirst)) as (dT & EdT & LdT).
  rewrite EdT. cbn [bind].
  match goal with |- context [mapM ?f (simplified str_tuple pts)] =>
    destruct (mapM_total f (simplified str_tuple pts)) as [Tints ET] end.
  { intros r _. eexists. apply Tint_hours; [rewrite Tyear_length; lia | lia]. }
  rewrite ET. cbn [bind].
  match goal with |- context [mapM ?f (simplified str_tuple pts)] =>
    destruct (mapM_total f (simplified str_tuple pts)) as [ETOs EE] end.
  { intros r _. apply Evapo_total; assumption. }
  rewrite EE. cbn [bind].
  pose proof (mapM_length _ _ _ ET) as LTints.
  pose proof (mapM_length _ _ _ EE) as LETOs.
  assert (FT : Forall (fun Ti => List.length Ti = 24%nat) Tints).
  { apply (Forall2_Forall_r _ _ _ _ (mapM_inv _ _ _ ET)).
    intros r Ti _ H. exact (Tint_length _ _ _ _ _ H). }
  assert (FE : Forall (fun ETO => List.length ETO = 24%nat) ETOs).
  { apply (Forall2_Forall_r _ _ _ _ (mapM_inv _ _ _ EE)).
    intros r ETO _ H. exact (Evapo_length _ _ _ _ _ _ _ _ _ H). }
  assert (Hrow : forall r ETO Ti,
            In (r, (ETO, Ti)) (combine (simplified str_tuple pts) (combine ETOs Tints)) ->
            exists t log,
              solve_row root (SolarRadiation W month day) (SkyTemp W month day)
                (AirTemp W month day) r ETO Ti = Ok (t, log) /\ List.length t = 24%nat).
  { intros r ETO Ti Hx.
    pose proof (in_combine_l _ _ _ _ Hx) as Hr.
    pose proof (in_combine_r _ _ _ _ Hx) as Hc.
    pose proof (in_combine_l _ _ _ _ Hc) as HE.
    pose proof (in_combine_r _ _ _ _ Hc) as HT.
    rewrite Forall_forall in FT, FE.
    unfold solve_row.
    destruct (compute_temp_total root (pt_id (pt r)) (pt_FixedTemp (pt r)) (Shadow1 r)
                (row_B (pt_lambd (pt r)) (pt_ep (pt r)) (pt_Cv (pt r))) (row_C (pt_em (pt r)))
                (SolarRadiation W month day) (pt_alb (pt r)) (pt_em (pt r))
                (SkyTemp W month day) (AirTemp W month day)
                (pt_lambd (pt r)) (pt_ep (pt r)) (pt_Cv (pt r)) ETO Ti (pt_kc (pt r)))
      as (t & log & E & L & _); try assumption.
    - apply Hsh, Hsim, Hr.
    - rewrite (FE ETO HE). lia.
    - rewrite (FT Ti HT). lia.
    - exists t, log. split; [exact E | exact L]. }
  match goal with |- context [mapM ?f (combine ?a ?b)] =>
    destruct (mapM_total f (combine a b)) as [res ER];
    [|assert (FR : Forall (fun y : list R * list info => List.length (fst y) = 24%nat) res);
      [apply (Forall2_Forall_r _ _ _ _ (mapM_inv _ _ _ ER))|]]
  end.
  { intros [r [ETO Ti]] Hx. cbn [fst snd].
    destruct (Hrow r ETO Ti Hx) as (t & log & E & _). exists (t, log). exact E. }
  { intros [r [ETO Ti]] y Hx Hy. cbn [fst snd] in Hy.
    destruct (Hrow r ETO Ti Hx) as (t & log & E & L).
    rewrite E in Hy. inversion Hy. exact L. }
  rewrite ER. cbn [bind].
  assert (Fne : forall t, In t (map fst res) -> t <> []).
  { intros t Ht. apply in_map_iff in Ht. destruct Ht as (y & <- & Hy).
    rewrite Forall_forall in FR. specialize (FR y Hy).
    intros E. rewrite E in FR. discriminate. }
  destruct (mapM_total py_min (map fst res)) as [mins Emin].
  { intros t Ht. destruct (statistics_spec t (Fne t Ht)) as (lo & _ & _ & E & _). eauto. }
  destruct (mapM_total statistics_mean (map fst res)) as [means Emean].
  { intros t Ht. destruct (statistics_spec t (Fne t Ht)) as (_ & avg & _ & _ & E & _). eauto. }
  destruct (mapM_total py_max (map fst res)) as [maxs Emax].
  { intros t Ht. destruct (statistics_spec t (Fne t Ht)) as (_ & _ & hi & _ & _ & E & _). eauto. }
  rewrite Emin, Emean, Emax. cbn [bind].
  exists dT. eexists _, _. split; [reflexivity|]. split; [reflexivity|].
  apply (add_columns_rows str_tuple _ _ _ _ ETOs Tints res mins means maxs); assumption.
Qed.

(** X13.  When the weather file has its 24 rows for the target day and
    every point has its 24 sunlit fractions, the result written for a point
    is the one computed for the first point of [pts_matrix] that has the
    same key: the evapotranspiration is computed with the latitude and the
    albedo of that first point, the deep-ground temperature with its
    conductivity and heat capacity, the 24 temperatures by [compute_temp]
    with its id, its fixed temperature and its material constants; the
    minimum, the mean rounded to two decimals and the maximum are those of
    that series.  The point itself gives only its id and coordinates. *)
Theorem result_of_first_point_with_key (root : R -> R -> R -> R -> R)
    (str_tuple : list R -> string) (parse_row : list string -> weather_row)
    (pts : list point) (rows : list (list string)) (month day : Z) (alt longz : R)
    (i : nat) :
  first_row rows = Ok i ->
  (24 <= List.length (filter (on_day month day) (read_csv parse_row rows i)))%nat ->
  (forall p, In p pts -> (24 <= List.length (Shadow1 p))%nat) ->
  exists out log dT,
    temperatures root str_tuple parse_row pts rows month day alt longz = Ok (out, log) /\
    deltaT (read_csv parse_row rows i) = Ok dT /\
    forall a p, nth_error pts a = Some p ->
      exists before r after ETO Ti series slog lo avg hi,
        pts = before ++ r :: after /\
        key str_tuple r = key str_tuple p /\
        (forall q, In q before -> key str_tuple q <> key str_tuple p) /\
        Evapo (day_ordinal month day) alt (longitude_offset pts longz)
          (AirTemp (read_csv parse_row rows i) month day)
          (SolarRadiation (read_csv parse_row rows i) month day)
          (Humidity (read_csv parse_row rows i) month day)
          (pt_Lat (pt r)) (pt_alb (pt r)) = Ok ETO /\
        Tint (day_ordinal month day) (Tyear (read_csv parse_row rows i)) dT
          (Dh_of (pt_lambd (pt r)) (pt_Cv (pt r))) = Ok Ti /\
        solve_row root (SolarRadiation (read_csv parse_row rows i) month day)
          (SkyTemp (read_csv parse_row rows i) month day)
          (AirTemp (read_csv parse_row rows i) month day) r ETO Ti = Ok (series, slog) /\
        py_min series = Ok lo /\ statistics_mean series = Ok avg /\
        py_max series = Ok hi /\
        nth_error out a
        = Some {| o_id := pt_id (pt p); o_x := pt_x (pt p); o_y := pt_y (pt p);
                  o_result := Some (series, lo, round2 avg, hi) |}.
Proof.
  intros Hfirst Hday Hsh.
  destruct (temperatures_columns root str_tuple parse_row pts rows month day alt longz i
              Hfirst Hday Hsh) as (dT & sim & log & EdT & E & F).
  destruct (simplified_keys str_tuple pts) as [Hkeys _].
  pose proof (row_solved_keys _ _ _ _ _ _ F) as Hk.
  assert (Hnd : NoDup (map sv_key sim))
    by (rewrite Hk, Hkeys; apply keys_of_NoDup).
  assert (Hcov : forall p, In p pts -> In (key str_tuple p) (map sv_key sim)).
  { intros p Hp. rewrite Hk, Hkeys. apply keys_of_In. apply in_map. exact Hp. }
  rewrite merge_lookup in E by assumption.
  eexists _, log, dT. split; [exact E|]. split; [exact EdT|].
  intros a p Ha.
  assert (Hp : In p pts) by (apply nth_error_In with a; exact Ha).
  destruct (filter_unique sv_key sim (key str_tuple p) Hnd (Hcov p Hp))
    as (s & Es & Eks & Hs).
  destruct (Forall2_In_r _ _ _ _ F Hs) as (r & Hr & Hrs).
  destruct Hrs as (Ekr & _ & ETO & Ti & slog & avg & EE & ET & ES & Elo & Eavg & Em & Ehi).
  destruct (simplified_first str_tuple pts r Hr) as (before & after & Epts & Hb).
  cbn [fst snd] in ES.
  exists before, r, after, ETO, Ti, (Temp_DegC s), slog, (min_DegC s), avg, (max_DegC s).
  split; [exact Epts|]. split; [congruence|].
  split; [intros q Hq; rewrite <- Eks, Ekr; apply Hb; exact Hq|].
  split; [exact EE|]. split; [exact ET|]. split; [exact ES|].
  split; [exact Elo|]. split; [exact Eavg|]. split; [exact Ehi|].
  rewrite (map_nth_error _ _ _ Ha). unfold class_result. rewrite Es, Em. reflexivity.
Qed.

Lemma result_of_first_point_with_key_witness :
  exists out log series lo m hi,
    temperatures root_choice (fun _ => ""%string) sample_parse sample_pts sample_rows
      7 21 100 0 = Ok (out, log) /\
    (exists ETO Ti slog,
       solve_row root_choice (SolarRadiation (read_csv sample_parse sample_rows 0) 7 21)
         (SkyTemp (read_csv sample_parse sample_rows 0) 7 21)
         (AirTemp (read_csv sample_parse sample_rows 0) 7 21)
         {| pt := sample_attrs 1; Shadow1 := hours 1 |} ETO Ti = Ok (series, slog)) /\
    nth_error out 1
    = Some {| o_id := 2; o_x := 0; o_y := 0; o_result := Some (series, lo, m, hi) |}.
Proof.
  destruct (result_of_first_point_with_key root_choice (fun _ => ""%string) sample_parse
              sample_pts sample_rows 7 21 100 0 0)
    as (out & log & dT & E & _ & H).
  - reflexivity.
  - simpl. lia.
  - intros p [<-|[<-|[]]]; simpl; lia.
  - destruct (H 1%nat _ eq_refl)
      as (before & r & after & ETO & Ti & series & slog & lo & avg & hi
          & Epts & _ & Hb & _ & _ & ES & _ & _ & _ & Hout).
    assert (Er : r = {| pt := sample_attrs 1; Shadow1 := hours 1 |}).
    { destruct before as [|b before].
      - inversion Epts. reflexivity.
      - exfalso. inversion Epts as [[Eb Erest]]. apply (Hb b); [left; reflexivity|].
        rewrite <- Eb. reflexivity. }
    subst r.
    exists out, log, series, lo, (round2 avg), hi.
    split; [exact E|]. split; [exists ETO, Ti, slog; exact ES | exact Hout].
Defined.

(** ** The whole run, from the rasters to the rows of the output *)

Lemma insert_sorted_Z_Sorted (a : Z) (l : list Z) :
  Sorted Z.le l -> Sorted Z.le (insert_sorted Z.leb a l).
Proof.
  induction 1 as [|b l Hs IH Hd]; [repeat constructor|].
  cbn [insert_sorted]. destruct (Z.leb_spec a b) as [Hab|Hba].
  - constructor; [constructor; assumption|]. constructor. exact Hab.
  - constructor; [exact IH|].
    destruct Hd as [|c l Hbc]; cbn [insert_sorted].
    + constructor. lia.
    + destruct (a <=? c)%Z; constructor; [lia | exact Hbc].
Qed.

Lemma isort_Z_Sorted (l : list Z) : Sorted Z.le (isort Z.leb l).
Proof.
  induction l as [|a l IH]; [constructor|].
  cbn [isort]. apply insert_sorted_Z_Sorted. exact IH.
Qed.

Lemma Forall2_map_l {A B : Type} (f : B -> A) (P : A -> B -> Prop) (l : list A)
    (bs : list B) :
  Forall2 P l bs -> (forall a b, P a b -> f b = a) -> map f bs = l.
Proof.
  induction 1 as [|a b l bs Hab _ IH]; intros H; [reflexivity|].
  cbn [map]. rewrite (H a b Hab), IH by exact H. reflexivity.
Qed.

Section PointsMatrixRows.

Variable layer : list attrs.
Variable sh : Z -> attrs -> R.

Hypothesis ids_NoDup : NoDup (map pt_id layer).

Local Abbreviation row_of h := (fun p => {| r_pt := p; r_Shadow1 := sh h p; r_hour := h |}).
Local Abbreviation table_of hs := (flat_map (fun h => map (row_of h) layer) hs).

Lemma ids_of_table (hs : list Z) (i : Z) :
  hs <> [] ->
  In i (ids_of (table_of hs)) <-> In i (map pt_id layer).
Proof.
  intros Hne. unfold ids_of. split; intros H.
  - apply (Permutation_in _ (isort_perm _ _)) in H. apply nodup_In in H.
    apply in_map_iff in H. destruct H as (r & <- & Hr).
    apply in_flat_map in Hr. destruct Hr as (h & _ & Hr).
    apply in_map_iff in Hr. destruct Hr as (p & <- & Hp).
    cbn [r_pt]. apply in_map. exact Hp.
  - apply in_map_iff in H. destruct H as (p & <- & Hp).
    apply (Permutation_in _ (Permutation_sym (isort_perm _ _))).
    apply nodup_In. destruct hs as [|h1 hs']; [congruence|].
    apply in_map_iff. exists (row_of h1 p). split; [reflexivity|].
    cbn [flat_map]. apply in_or_app. left. exact (in_map (row_of h1) _ _ Hp).
Qed.

(** [pts_matrix] has exactly one row for each id, in the order of the ids:
    a feature of the layer with its values in the order of the hours. *)
Lemma pts_matrix_all (hs : list Z) :
  hs <> [] -> StronglySorted Z.le hs ->
  Forall2 (fun i row => pt_id (pt row) = i /\ In (pt row) layer /\
                        Shadow1 row = map (fun h => sh h (pt row)) hs)
          (ids_of (table_of hs)) (pts_matrix (table_of hs)).
Proof.
  intros Hne Hs. unfold pts_matrix. cbv zeta.
  unfold sort_by_hour. rewrite (isort_sorted _ _ (table_sorted layer sh hs Hs)).
  pose proof (fun i => proj1 (ids_of_table hs i Hne)) as Hids.
  induction (ids_of (table_of hs)) as [|i ids IH]; [constructor|].
  cbn [flat_map].
  assert (Hi : In i (map pt_id layer)) by (apply Hids; left; reflexivity).
  apply in_map_iff in Hi. destruct Hi as (p & <- & Hp).
  rewrite (filter_table layer sh ids_NoDup hs p Hp).
  destruct hs as [|h1 hs']; [congruence|].
  cbn [map app]. constructor.
  - cbn [pt Shadow1 r_Shadow1]. split; [reflexivity|]. split; [exact Hp|].
    f_equal. rewrite map_map. reflexivity.
  - apply IH. intros j Hj. apply Hids. right. exact Hj.
Qed.

End PointsMatrixRows.

(** X14.  With at least one shadow raster, a layer of features with
    distinct ids and a weather file that has its 24 rows for the target
    day, the run returns; the output has exactly one row for each feature,
    in increasing order of id, with the coordinates of the feature, a
    series of 24 temperatures and its minimum, mean and maximum: no row is
    left without result by the left merge. *)
Theorem one_row_per_feature (root : R -> R -> R -> R -> R)
    (str_tuple : list R -> string) (parse_row : list string -> weather_row)
    (layer : list attrs) (files : list raster_file) (dir0 : tempdir)
    (rows : list (list string)) (month day : Z) (alt longz : R) (i : nat) :
  files <> [] -> layer <> [] -> NoDup (map pt_id layer) ->
  first_row rows = Ok i ->
  (24 <= List.length (filter (on_day month day) (read_csv parse_row rows i)))%nat ->
  exists out log,
    shadows_and_temperatures root str_tuple parse_row layer files dir0 rows
      month day alt longz = Ok (out, log) /\
    Permutation (map o_id out) (map pt_id layer) /\
    Sorted Z.le (map o_id out) /\
    forall o, In o out ->
      exists p series lo m hi,
        In p layer /\ o_id o = pt_id p /\ o_x o = pt_x p /\ o_y o = pt_y p /\
        o_result o = Some (series, lo, m, hi) /\ List.length series = 24%nat.
Proof.
  intros Hne _ Hnd Hfirst Hday.
  unfold shadows_and_temperatures. rewrite (shadow_table_spec layer files dir0 Hne).
  cbn [bind].
  assert (Hdh : day_hours <> []) by (unfold day_hours; cbn [seq map]; discriminate).
  pose proof (pts_matrix_all layer (shadow_at files) Hnd day_hours Hdh day_hours_sorted) as HF.
  pose proof (fun j => ids_of_table layer (shadow_at files) day_hours j Hdh) as Hids.
  set (T := flat_map _ day_hours) in *.
  assert (Emap : map (fun row => pt_id (pt row)) (pts_matrix T) = ids_of T).
  { apply (Forall2_map_l _ _ _ _ HF). intros a b H. apply H. }
  assert (Hrows : forall row, In row (pts_matrix T) ->
                    In (pt row) layer /\ List.length (Shadow1 row) = 24%nat).
  { assert (Fa : Forall (fun row => In (pt row) layer /\ List.length (Shadow1 row) = 24%nat)
                        (pts_matrix T)).
    { apply (Forall2_Forall_r _ _ _ _ HF). intros a b _ (_ & Hin & ES).
      split; [exact Hin|]. rewrite ES. unfold day_hours.
      rewrite !length_map, length_seq. reflexivity. }
    rewrite Forall_forall in Fa. exact Fa. }
  assert (Hsh : forall p, In p (pts_matrix T) -> (24 <= List.length (Shadow1 p))%nat).
  { intros p Hp. destruct (Hrows p Hp) as [_ L]. rewrite L. apply le_n. }
  destruct (temperatures_columns root str_tuple parse_row (pts_matrix T) rows month day
              alt longz i Hfirst Hday Hsh) as (dT & sim & log & EdT & E & F).
  destruct (simplified_keys str_tuple (pts_matrix T)) as [Hkeys Hsim].
  pose proof (row_solved_keys _ _ _ _ _ _ F) as Hk.
  assert (Hnds : NoDup (map sv_key sim))
    by (rewrite Hk, Hkeys; apply keys_of_NoDup).
  assert (Hcov : forall p, In p (pts_matrix T) -> In (key str_tuple p) (map sv_key sim)).
  { intros p Hp. rewrite Hk, Hkeys. apply keys_of_In. apply in_map. exact Hp. }
  rewrite merge_lookup in E by assumption.
  eexists _, log. split; [exact E|].
  rewrite map_map. cbn [o_id]. rewrite Emap.
  split; [|split].
  - apply NoDup_Permutation.
    + unfold ids_of. apply (Permutation_NoDup (Permutation_sym (isort_perm _ _))).
      apply NoDup_nodup.
    + exact Hnd.
    + exact Hids.
  - apply isort_Z_Sorted.
  - intros o Ho. apply in_map_iff in Ho. destruct Ho as (p & <- & Hp).
    destruct (filter_unique sv_key sim (key str_tuple p) Hnds (Hcov p Hp))
      as (s & Es & _ & Hs).
    destruct (Forall2_In_r _ _ _ _ F Hs) as (r & Hr & Hrs).
    destruct Hrs as (_ & _ & ETO & Ti & slog & avg & EE & ET & ES & _).
    cbn [fst snd] in ES.
    exists (pt p), (Temp_DegC s), (min_DegC s), (mean_DegC s), (max_DegC s).
    cbn [o_id o_x o_y o_result].
    split; [apply Hrows; exact Hp|].
    split; [reflexivity|]. split; [reflexivity|]. split; [reflexivity|].
    split; [unfold class_result; rewrite Es; reflexivity|].
    unfold solve_row in ES.
    destruct (compute_temp_total root (pt_id (pt r)) (pt_FixedTemp (pt r)) (Shadow1 r)
                (row_B (pt_lambd (pt r)) (pt_ep (pt r)) (pt_Cv (pt r))) (row_C (pt_em (pt r)))
                (SolarRadiation (read_csv parse_row rows i) month day)
                (pt_alb (pt r)) (pt_em (pt r))
                (SkyTemp (read_csv parse_row rows i) month day)
                (AirTemp (read_csv parse_row rows i) month day)
                (pt_lambd (pt r)) (pt_ep (pt r)) (pt_Cv (pt r)) ETO Ti (pt_kc (pt r)))
      as (t & log' & Et & L & _).
    + apply Hsh, Hsim, Hr.
    + unfold SolarRadiation. rewrite length_map. exact Hday.
    + unfold SkyTemp. rewrite length_map. exact Hday.
    + unfold AirTemp. rewrite length_map. exact Hday.
    + rewrite (Evapo_length _ _ _ _ _ _ _ _ _ EE). apply le_n.
    + rewrite (Tint_length _ _ _ _ _ ET). apply le_n.
    + rewrite Et in ES. inversion ES. subst. exact L.
Qed.

Lemma one_row_per_feature_witness :
  exists out log,
    shadows_and_temperatures root_choice (fun _ => ""%string) sample_parse
      sample_layer sample_files (fun _ => None) sample_rows 7 21 100 0 = Ok (out, log) /\
    Permutation (map o_id out) [1%Z; 2%Z].
Proof.
  destruct (one_row_per_feature root_choice (fun _ => ""%string) sample_parse
              sample_layer sample_files (fun _ => None) sample_rows 7 21 100 0 0)
    as (out & log & E & P & _).
  - discriminate.
  - discriminate.
  - simpl. constructor; [|constructor; [|constructor]]; simpl; intuition discriminate.
  - reflexivity.
  - simpl. lia.
  - exists out, log. split; [exact E | exact P].
Defined.
